(** * struct-to-docx: the DocxBuilder template renderer

    A shallow embedding of [DocxBuilder] (the class of the repository's
    [src/index.ts]) and of the types of [src/types.ts], with the properties
    its specification states about field resolution, inline markup, line
    breaks, empty paragraphs, style injection and unit conversion, and
    further properties of the two renderers, the markup parser and the
    builder's ids.

    Modelling conventions.
    - A JavaScript value is a [JValue]; an object is the association list of
      its own properties (first binding of a key wins), an array the list
      of its elements.  No value is a function.  Members inherited from
      the built-in prototypes ([constructor], [toString], ...) are not
      part of the model: [getProp] answers for the keys of [ownKey], and
      a statement about a field path read through the data carries
      [ownPath] for it.
    - [JNum n] is an integer-valued number: the finite binary64 number
      nearest to [n], printed as Number::toString prints it.
    - [String_] raises where [String] does: on an object with an own
      member named [toString].
    - A string is a [string] whose characters stand for UTF-16 code units
      below 256; offsets count characters.  [isChinese], which tests code
      units above that, takes the list of the code units.
    - A [number] that the code only counts with is a [Z]; a [number] that goes
      through [Math.round] is a binary64 [float], so the unit helpers are
      bit-exact.  The decimal string of a [float] in the HTML markup is a
      parameter of the HTML renderer.
    - Code that can raise returns a [result]; [Throw] is a raised exception.
    - The constructors of the docx library are records of their options. *)

From Stdlib Require Import Bool Ascii String List ZArith Lia.
From Stdlib Require Import DecimalString DecimalZ DecimalPos.
From Stdlib Require Import Floats.PrimFloat Floats.FloatOps Floats.SpecFloat.
From Stdlib Require Import Numbers.Cyclic.Int63.Uint63.
From Stdlib Require Import Sorting.Permutation.
Import ListNotations.

Set Warnings "-inexact-float,-register-all,-abstract-large-number".

Local Open Scope bool_scope.
Local Open Scope list_scope.
Local Open Scope string_scope.

(** ** Exceptions *)

Inductive JSError : Type :=
| TypeError
| SyntaxError
| RangeError.

Inductive result (A : Type) : Type :=
| Ok (a : A)
| Throw (e : JSError).

Arguments Ok {A} a.
Arguments Throw {A} e.

Definition bind {A B : Type} (m : result A) (k : A -> result B) : result B :=
  match m with
  | Ok a => k a
  | Throw e => Throw e
  end.

Notation "x <- m ;; k" := (bind m (fun x => k))
  (at level 61, m at next level, right associativity).

Definition returns {A : Type} (m : result A) : Prop := exists a, m = Ok a.

(** ** JavaScript values and the built-ins the builder calls *)

Module JS.

Inductive JValue : Type :=
| JUndefined
| JNull
| JBool (b : bool)
| JNum (n : Z)
| JStr (s : string)
| JArr (elements : list JValue)
| JObj (properties : list (string * JValue)).

(** [v === undefined] *)
Definition isUndefined (v : JValue) : bool :=
  match v with
  | JUndefined => true
  | _ => false
  end.

(** ToBoolean: what [if (v)], [!v] and [v && w] test. *)
Definition truthy (v : JValue) : bool :=
  match v with
  | JUndefined | JNull => false
  | JBool b => b
  | JNum n => negb (Z.eqb n 0)
  | JStr s => negb (String.eqb s "")
  | JArr _ | JObj _ => true
  end.

(** The decimal numeral of an integer: what a number the code counts with
    prints as (a number below [2^53] in absolute value). *)
Definition numberToString (n : Z) : string :=
  NilZero.string_of_int (Z.to_int n).

(** The binary64 number nearest to an integer, ties to even; an infinity
    past the largest number. *)
Definition numberOfZ (z : Z) : spec_float :=
  binary_normalize 53 1024 z 0 false.

(** [Number.MAX_VALUE] *)
Definition maxValue : Z := (2 ^ 1024 - 2 ^ 971)%Z.

(** The value of a number that is an integer. *)
Definition integerOfNumber (x : spec_float) : Z :=
  match x with
  | S754_finite s m e =>
      let magnitude := Z.shiftl (Zpos m) e in
      if s then (- magnitude)%Z else magnitude
  | _ => 0%Z
  end.

(** [candidate] denotes the number [x] denotes. *)
Definition roundsTo (x candidate : Z) : bool :=
  SFeqb (numberOfZ candidate) (numberOfZ x).

(** Number::toString looks for the fewest digits [s] with [s * 10^(n-k)]
    denoting [x]: the [k]-digit candidates for an [x] of [n] digits are
    the two multiples of [10^(n-k)] around [x], the nearer one winning and
    the even one on a tie. *)
Definition digitsAt (x : Z) (n k : nat) : option Z :=
  let p := (10 ^ Z.of_nat (n - k))%Z in
  let below := (x / p)%Z in
  let above := (below + 1)%Z in
  let okBelow := roundsTo x (below * p) in
  let okAbove := (above <? 10 ^ Z.of_nat k)%Z && roundsTo x (above * p) in
  if okBelow && okAbove then
    let dBelow := (x - below * p)%Z in
    let dAbove := (above * p - x)%Z in
    if (dBelow <? dAbove)%Z then Some below
    else if (dAbove <? dBelow)%Z then Some above
    else if Z.even below then Some below else Some above
  else if okBelow then Some below
  else if okAbove then Some above
  else None.

Fixpoint shortestDigits (x : Z) (n k fuel : nat) : Z * nat :=
  match fuel with
  | O => (x, n)
  | S fuel' =>
      match digitsAt x n k with
      | Some s => (s, k)
      | None => shortestDigits x n (S k) fuel'
      end
  end.

Definition zeros (n : nat) : string := Nat.iter n (String "0") "".

(** Number::toString of a positive integer number [x]: its digits and
    zeros up to twenty-one places, the exponent notation beyond. *)
Definition largeNumberToString (x : Z) : string :=
  let n := String.length (numberToString x) in
  let '(s, k, n) :=
    if roundsTo x (10 ^ Z.of_nat n)%Z then (1%Z, 1%nat, S n)
    else let (s, k) := shortestDigits x n 1 n in (s, k, n) in
  let digits := numberToString s in
  if (n <=? 21)%nat then digits ++ zeros (n - k)
  else
    match digits with
    | String d EmptyString =>
        String d ("e+" ++ numberToString (Z.of_nat (n - 1)))
    | String d rest =>
        String d ("." ++ rest ++ "e+" ++ numberToString (Z.of_nat (n - 1)))
    | EmptyString => EmptyString
    end.

(** Number::toString of the number [JNum z] stands for: the finite number
    nearest to [z].  Below [2^53] every integer is a number and prints as
    its numeral. *)
Definition Number_toString (z : Z) : string :=
  if (Z.abs z <? 2 ^ 53)%Z then numberToString z
  else
    match numberOfZ z with
    | S754_finite s _ _ as x =>
        (if s then "-" else "")
        ++ largeNumberToString (Z.abs (integerOfNumber x))
    | S754_infinity s =>
        (if s then "-" else "") ++ largeNumberToString maxValue
    | _ => numberToString z
    end.

(** [xs.join(sep)] over strings already converted. *)
Fixpoint join (sep : string) (xs : list string) : string :=
  match xs with
  | [] => ""
  | [x] => x
  | x :: rest => x ++ sep ++ join sep rest
  end.

(** The own property [k] of an association list. *)
Fixpoint lookup (k : string) (properties : list (string * JValue))
  : JValue :=
  match properties with
  | [] => JUndefined
  | (k', v) :: rest => if String.eqb k k' then v else lookup k rest
  end.

(** [Object.hasOwn]: the list binds [k], be it to [undefined]. *)
Fixpoint hasOwn (k : string) (properties : list (string * JValue)) : bool :=
  match properties with
  | [] => false
  | (k', _) :: rest => String.eqb k k' || hasOwn k rest
  end.

(** [String(v)].  An array prints its elements joined by commas, with
    [null] and [undefined] elements printed as nothing.  An object is
    converted by its [toString]: the inherited one answers
    ["[object Object]"]; an own member of that name is no function (a
    value of the model never is), so the conversion goes on to [valueOf],
    which is no function either or returns the object, and raises a
    TypeError. *)
Fixpoint String_ (v : JValue) : result string :=
  match v with
  | JUndefined => Ok "undefined"
  | JNull => Ok "null"
  | JBool true => Ok "true"
  | JBool false => Ok "false"
  | JNum n => Ok (Number_toString n)
  | JStr s => Ok s
  | JArr elements =>
      pieces <-
        (fix each (es : list JValue) : result (list string) :=
           match es with
           | [] => Ok []
           | e :: rest =>
               piece <- match e with
                        | JUndefined | JNull => Ok ""
                        | _ => String_ e
                        end ;;
               pieces <- each rest ;;
               Ok (piece :: pieces)
           end) elements ;;
      Ok (join "," pieces)
  | JObj properties =>
      if hasOwn "toString" properties then Throw TypeError
      else Ok "[object Object]"
  end.

Definition isDigit (c : ascii) : bool :=
  (48 <=? nat_of_ascii c)%nat && (nat_of_ascii c <=? 57)%nat.

Fixpoint digitsValue (acc : nat) (s : string) : option nat :=
  match s with
  | EmptyString => Some acc
  | String c rest =>
      if isDigit c
      then digitsValue (10 * acc + (nat_of_ascii c - 48)) rest
      else None
  end.

(** A property key is an index when it is the canonical decimal numeral
    of a natural number: ["0"], or digits that do not start with [0]. *)
Definition arrayIndex (k : string) : option nat :=
  match k with
  | EmptyString => None
  | String c rest =>
      if Ascii.eqb c "0"
      then match rest with EmptyString => Some 0%nat | _ => None end
      else digitsValue 0 k
  end.







(** [v[k]] for an own key [k] ([ownKey]: members inherited from the
    prototypes are not part of the model).  Reading a property of [null]
    or [undefined] raises a TypeError; arrays and strings have their
    indices and [length]. *)
Definition getProp (v : JValue) (k : string) : result JValue :=
  match v with
  | JUndefined | JNull => Throw TypeError
  | JBool _ | JNum _ => Ok JUndefined
  | JStr s =>
      if String.eqb k "length" then Ok (JNum (Z.of_nat (String.length s)))
      else match arrayIndex k with
           | Some i => match String.get i s with
                       | Some c => Ok (JStr (String c EmptyString))
                       | None => Ok JUndefined
                       end
           | None => Ok JUndefined
           end
  | JArr elements =>
      if String.eqb k "length" then Ok (JNum (Z.of_nat (List.length elements)))
      else match arrayIndex k with
           | Some i => Ok (nth i elements JUndefined)
           | None => Ok JUndefined
           end
  | JObj properties => Ok (lookup k properties)
  end.

(** What [JSON.stringify] followed by [JSON.parse] rebuilds below the top
    level: properties holding [undefined] disappear, array elements
    holding [undefined] come back as [null]. *)
Fixpoint jsonCopy (v : JValue) : JValue :=
  match v with
  | JArr elements =>
      JArr (map (fun e => match e with
                          | JUndefined => JNull
                          | _ => jsonCopy e
                          end) elements)
  | JObj properties =>
      JObj ((fix copyProperties (ps : list (string * JValue)) :=
               match ps with
               | [] => []
               | (k, JUndefined) :: rest => copyProperties rest
               | (k, e) :: rest => (k, jsonCopy e) :: copyProperties rest
               end) properties)
  | _ => v
  end.

(** [JSON.parse(JSON.stringify(v))]: [JSON.stringify(undefined)] is
    [undefined], which [JSON.parse] rejects with a SyntaxError. *)
Definition JSON_parse_stringify (v : JValue) : result JValue :=
  match v with
  | JUndefined => Throw SyntaxError
  | _ => Ok (jsonCopy v)
  end.

(** [s.includes(c)] for a one-character needle. *)
Fixpoint includes (s : string) (c : ascii) : bool :=
  match s with
  | EmptyString => false
  | String c' rest => Ascii.eqb c' c || includes rest c
  end.

(** [s.split(sep)] for a one-character separator. *)
Fixpoint split (s : string) (sep : ascii) : list string :=
  match s with
  | EmptyString => [EmptyString]
  | String c rest =>
      if Ascii.eqb c sep then EmptyString :: split rest sep
      else match split rest sep with
           | [] => [String c EmptyString]
           | piece :: pieces => String c piece :: pieces
           end
  end.

End JS.
Import JS.

(** ** The template types of [types.ts] *)

Module Types.

Inductive HtmlControl : Type :=
| input
| textarea
| select
| span.

(** [IHtmlConfig]: [field] is required, [name] and [props] are optional;
    [props] is an object, given by its entries in order ([options], a list
    of objects with [label] and [value], among them). *)
Record IHtmlConfig : Type := {
  hc_field : string;
  hc_name : option HtmlControl;
  hc_props : option (list (string * JValue))
}.

Record Underline : Type := {
  underlineType : string
}.

(** [ITextTypeOptions = IRunOptions & { field?, htmlConfig? }], with the
    run options the builder reads.  [None] is an absent (or [null])
    member, which is what [??] tests. *)
Record ITextTypeOptions : Type := {
  text : option string;
  field : option string;
  htmlConfig : option IHtmlConfig;
  font : option string;
  size : option float;
  color : option string;
  bold : option bool;
  italics : option bool;
  underline : option Underline;
  strike : option bool;
  subScript : option bool;
  superScript : option bool;
  break : option Z
}.

Record IImageTypeOptions : Type := {
  data : string;
  transformation : float * float;
  floating : option (Z * Z);
  altText : option string
}.

(** [IParagraph = Array<ITextType | IImageType>] *)
Inductive IParagraphItem : Type :=
| TextType (options : ITextTypeOptions)
| ImageType (options : IImageTypeOptions).

Record ISpacing : Type := {
  before : option float;
  after : option float;
  line : option float
}.

(** The paragraph options besides [children]. *)
Record IParagraphOwnOptions : Type := {
  alignment : option string;
  spacing : option ISpacing
}.

Record ITableRowOwnOptions : Type := {
  cantSplit : option bool
}.

Record ITableCellOwnOptions : Type := {
  columnSpan : option Z;
  rowSpan : option Z;
  width : option (float + string)
}.

(** [IChildren = Array<IParagraphType | IEmptyParagraphType | ITableType>].
    A table is its rows, a row its cells, a cell its children; the
    renderers walk a cell's children with the function that walks a
    section's. *)
Inductive IContent : Type :=
| ParagraphType (options : IParagraphOwnOptions)
                (children : list IParagraphItem)
| EmptyParagraphType
| TableType
    (rows : list (ITableRowOwnOptions *
                  list (ITableCellOwnOptions * list IContent))).

Definition IChildren : Type := list IContent.

(** [IChineseFontSize]: the sixteen named sizes. *)
Inductive IChineseFontSize : Type :=
| 初号 | 小初 | 一号 | 小一 | 二号 | 小二 | 三号 | 小三
| 四号 | 小四 | 五号 | 小五 | 六号 | 小六 | 七号 | 八号.

(** [IFontSize = IChineseFontSize | number] *)
Inductive IFontSize : Type :=
| Named (token : IChineseFontSize)
| Points (points : float).

(** The [default], [first] and [even] slots of [headers] and [footers],
    each holding its [children] when present. *)
Record ISlots : Type := {
  defaultSlot : option IChildren;
  firstSlot : option IChildren;
  evenSlot : option IChildren
}.

Record ISection : Type := {
  sectionChildren : IChildren;
  headers : option ISlots;
  footers : option ISlots
}.

End Types.
Import Types.

(** ** What the binary renderer hands to the docx library *)

Module Docx.

(** [ParagraphChild]: a [TextRun] or an [ImageRun], each holding the
    options object it was constructed from. *)
Inductive ParagraphChild : Type :=
| TextRun (options : ITextTypeOptions)
| ImageRun (options : IImageTypeOptions).

(** [FileChild]: a [Paragraph] (its options, [None] when constructed from
    [children] alone) or a [Table]. *)
Inductive FileChild : Type :=
| Paragraph (options : option IParagraphOwnOptions)
            (children : list ParagraphChild)
| Table
    (rows : list (ITableRowOwnOptions *
                  list (ITableCellOwnOptions * list FileChild))).

End Docx.
Import Docx.

(** ** Unit helpers (static methods of [DocxBuilder]) *)

Module Units.

Local Open Scope Z_scope.

(** The float of an integer below [2^53] in absolute value. *)
Definition floatOfZ (z : Z) : float :=
  match z with
  | Z0 => 0%float
  | Zpos _ => PrimFloat.of_uint63 (Uint63.of_Z z)
  | Zneg p => PrimFloat.opp (PrimFloat.of_uint63 (Uint63.of_Z (Zpos p)))
  end.

(** [Math.round(x)]: the integer nearest to [x], ties going up; [NaN],
    the infinities and the zeros are returned as they are.  A finite
    [x] is [(-1)^s * m * 2^e] exactly, so the rounding is computed in
    [Z]: [floor (x + 1/2) = floor ((2 * m' + 2^k) / 2^(k+1))] for
    [e = -k < 0], and [x] is an integer already when [0 <= e]. *)
Definition Math_round (x : float) : float :=
  match Prim2SF x with
  | S754_finite s m e =>
      if 0 <=? e then x
      else
        let k := - e in
        let signed := if s then Zneg m else Zpos m in
        let n := (2 * signed + 2 ^ k) / 2 ^ (k + 1) in
        if (n =? 0) && s then (-0)%float else floatOfZ n
  | _ => x
  end.

Definition fontSizeMap (token : IChineseFontSize) : float :=
  match token with
  | 初号 => 42
  | 小初 => 36
  | 一号 => 26
  | 小一 => 24
  | 二号 => 22
  | 小二 => 18
  | 三号 => 16
  | 小三 => 15
  | 四号 => 14
  | 小四 => 12
  | 五号 => 10.5
  | 小五 => 9
  | 六号 => 7.5
  | 小六 => 6.5
  | 七号 => 5.5
  | 八号 => 5
  end%float.

Definition textSize (fontSize : IFontSize) : float :=
  match fontSize with
  | Points points => Math_round (points * 2)
  | Named token => Math_round (fontSizeMap token * 2)
  end%float.

Definition paragraphBorderSize (points : float) : float :=
  Math_round (points * 8)%float.

Definition paragraphSpacingLine (line : float) : float :=
  Math_round (line * 240)%float.

Definition cmToTwips (cm : float) : float :=
  Math_round (cm * 566.93)%float.

Definition cmToEmus (cm : float) : float :=
  Math_round (cm * 360000)%float.

Definition cmToPx (cm : float) : float :=
  Math_round (cm * 96 / 2.54)%float.

Definition twipsToPx (twips : float) : float :=
  Math_round (twips * (96 / 1440))%float.

End Units.
Import Units.

(** ** The builder *)

Module DocxBuilder.

(** The instance fields the renderers read. *)
Record DocxBuilder : Type := {
  id : string;
  sections : list ISection;
  defaultFont : string;
  defaultFontSize : IFontSize
}.

(** [a ?? b] *)
Definition nullish {A : Type} (a : option A) (b : A) : A :=
  match a with
  | Some x => x
  | None => b
  end.

Infix "??" := nullish (at level 45, right associativity).

(** *** Field resolution of the binary renderer
    ([renderChildren], the text branch up to the parsing of [value]) *)

(** [options.field ?? options.htmlConfig?.field] *)
Definition fieldOf (options : ITextTypeOptions) : option string :=
  match field options with
  | Some f => Some f
  | None => option_map hc_field (htmlConfig options)
  end.

(** The [for] loop over [fieldParts]: it stops with [isBreak] at the first
    part whose property is falsy, and moves [tmpValue] to the property
    otherwise.  It returns [tmpValue] and [isBreak]. *)
Fixpoint walkFieldParts (tmpValue : JValue) (fieldParts : list string)
  : result (JValue * bool) :=
  match fieldParts with
  | [] => Ok (tmpValue, false)
  | part :: rest =>
      next <- getProp tmpValue part ;;
      if negb (truthy next) then Ok (tmpValue, true)
      else walkFieldParts next rest
  end.

(** The [value] a text run is rendered with: [options.text ?? ""] unless
    [data] has something for the run's field. *)
Definition resolveValue (options : ITextTypeOptions) (data : JValue)
  : result string :=
  let value := text options ?? "" in
  match fieldOf options with
  | None => Ok value
  | Some field =>
      if truthy data && negb (String.eqb field "") then
        direct <- getProp data field ;;
        if negb (isUndefined direct) then String_ direct
        else if includes field "." then
          let fieldParts := split field "." in
          tmpValue <- JSON_parse_stringify data ;;
          walked <- walkFieldParts tmpValue fieldParts ;;
          let (tmpValue, isBreak) := walked : JValue * bool in
          if negb isBreak then String_ tmpValue else Ok value
        else Ok value
      else Ok value
  end.

(** *** [parseText] *)

(** An entry of [matches]: the tag, the captured group, [match.index] and
    the offset after the match. *)
Record Match : Type := {
  matchType : string;
  matchValue : string;
  matchStart : nat;
  matchEnd : nat
}.

(** An entry of [parts]. *)
Record Part : Type := {
  type : string;
  value : string
}.

Definition inlineTags : list string :=
  ["sup"; "sub"; "strong"; "b"; "em"; "i"; "del"; "s"; "u"].

Definition openTag (tag : string) : string := "<" ++ tag ++ ">".
Definition closeTag (tag : string) : string := "</" ++ tag ++ ">".

(** The characters [.] does not match. *)
Definition lineTerminator (c : ascii) : bool :=
  Ascii.eqb c "010" || Ascii.eqb c "013".

Fixpoint drop (n : nat) (s : string) : string :=
  match n, s with
  | O, _ => s
  | S n', EmptyString => EmptyString
  | S n', String _ rest => drop n' rest
  end.

(** [(.*?)] followed by [close], read at the head of [s]: the length of
    the shortest run of characters, none a line terminator, after which
    [close] stands. *)
Fixpoint lazyCapture (close s : string) : option nat :=
  if String.prefix close s then Some 0%nat
  else match s with
       | EmptyString => None
       | String c rest =>
           if lineTerminator c then None
           else option_map S (lazyCapture close rest)
       end.

(** The regular expression of [tag] tried at the head of [s]: the captured
    group and the length of the whole match. *)
Definition matchHere (tag s : string) : option (string * nat) :=
  let o := String.length (openTag tag) in
  if String.prefix (openTag tag) s then
    match lazyCapture (closeTag tag) (drop o s) with
    | Some n =>
        Some (substring o n s, (o + n + String.length (closeTag tag))%nat)
    | None => None
    end
  else None.

(** [line.matchAll(regex)] from offset [pos], of which [s] is the rest of
    the line; [skip] characters belong to the match found last and are
    passed over. *)
Fixpoint matchAllFrom (tag : string) (pos skip : nat) (s : string)
  : list Match :=
  match s with
  | EmptyString => []
  | String _ rest =>
      match skip with
      | S skip' => matchAllFrom tag (S pos) skip' rest
      | O =>
          match matchHere tag s with
          | Some (captured, len) =>
              {| matchType := tag; matchValue := captured;
                 matchStart := pos; matchEnd := (pos + len)%nat |}
                :: matchAllFrom tag (S pos) (len - 1) rest
          | None => matchAllFrom tag (S pos) 0 rest
          end
      end
  end.

Definition matchAll (tag line : string) : list Match :=
  matchAllFrom tag 0 0 line.

(** The matches of every inline tag, in the order they are pushed. *)
Definition collectMatches (line : string) : list Match :=
  flat_map (fun tag => matchAll tag line) inlineTags.

(** [matches.sort((a, b) => a.start - b.start)]: the sort is stable, so
    it is the insertion sort that keeps equal starts in their order. *)
Fixpoint insertMatch (m : Match) (sorted : list Match) : list Match :=
  match sorted with
  | [] => [m]
  | m' :: rest =>
      if (matchStart m <=? matchStart m')%nat then m :: sorted
      else m' :: insertMatch m rest
  end.

Fixpoint sortMatches (matches : list Match) : list Match :=
  match matches with
  | [] => []
  | m :: rest => insertMatch m (sortMatches rest)
  end.

(** [line.slice(from, to)] for [from <= to]. *)
Definition slice (line : string) (from to : nat) : string :=
  substring from (to - from) line.

(** The loop over the sorted matches and the remainder after it, started
    with [lastIndex]. *)
Fixpoint buildParts (line : string) (matches : list Match) (lastIndex : nat)
  : list Part :=
  match matches with
  | [] =>
      if (lastIndex <? String.length line)%nat
      then [{| type := "text";
               value := slice line lastIndex (String.length line) |}]
      else []
  | m :: rest =>
      (if (lastIndex <? matchStart m)%nat
       then [{| type := "text";
                value := slice line lastIndex (matchStart m) |}]
       else [])
      ++ {| type := matchType m; value := matchValue m |}
      :: buildParts line rest (matchEnd m)
  end.

Definition parseLine (line : string) : list Part :=
  buildParts line (sortMatches (collectMatches line)) 0.

Definition parseText (input : string) : list (list Part) :=
  map parseLine (split input "010").

(** *** The binary renderer *)

(** [arr.forEach((x, index) => ...)] where the callback pushes onto one
    array: the pushes of every call, in order, indices counted from [i]. *)
Fixpoint forEachPush {A B : Type} (callback : A -> nat -> list B)
  (i : nat) (arr : list A) : list B :=
  match arr with
  | [] => []
  | x :: rest => (callback x i ++ forEachPush callback (S i) rest)%list
  end.

(** [lineIndex !== 0 && itemIndex === line.length - 1 ? 1 : 0] *)
Definition computedBreak (lineIndex itemIndex lineLength : nat) : Z :=
  if negb (lineIndex =? 0)%nat
     && (Z.of_nat itemIndex =? Z.of_nat lineLength - 1)%Z
  then 1%Z else 0%Z.

(** The options of the [TextRun] built for [item]. *)
Definition textRunOptions (this : DocxBuilder) (options : ITextTypeOptions)
  (item : Part) (lineIndex itemIndex lineLength : nat) : ITextTypeOptions :=
  {| text := Some (value item);
     field := field options;
     htmlConfig := htmlConfig options;
     font := Some (font options ?? defaultFont this);
     size := Some (size options ?? textSize (defaultFontSize this));
     color := color options;
     bold := Some (bold options
                   ?? (String.eqb (type item) "strong"
                       || String.eqb (type item) "b"));
     italics := Some (italics options
                      ?? (String.eqb (type item) "em"
                          || String.eqb (type item) "i"));
     underline := match underline options with
                  | Some u => Some u
                  | None => if String.eqb (type item) "u"
                            then Some {| underlineType := "single" |}
                            else None
                  end;
     strike := Some (strike options
                     ?? (String.eqb (type item) "del"
                         || String.eqb (type item) "s"));
     subScript := Some (subScript options ?? String.eqb (type item) "sub");
     superScript := Some (superScript options
                          ?? String.eqb (type item) "sup");
     break := Some (break options
                    ?? computedBreak lineIndex itemIndex lineLength) |}.

(** The callback of [this.parseText(value).forEach]: the runs pushed for
    one line, one per item. *)
Definition lineToRuns (this : DocxBuilder) (options : ITextTypeOptions)
  (line : list Part) (lineIndex : nat) : list ParagraphChild :=
  forEachPush
    (fun item itemIndex =>
       [TextRun (textRunOptions this options item
                   lineIndex itemIndex (List.length line))])
    0 line.

(** The runs pushed for the lines of a parsed value. *)
Definition linesToRuns (this : DocxBuilder) (options : ITextTypeOptions)
  (lines : list (list Part)) : list ParagraphChild :=
  forEachPush (lineToRuns this options) 0 lines.

(** [value !== "" && this.parseText(value).forEach(...)] *)
Definition textToRuns (this : DocxBuilder) (options : ITextTypeOptions)
  (value : string) : list ParagraphChild :=
  if negb (String.eqb value "")
  then linesToRuns this options (parseText value)
  else [].

(** The callback of [options.children.forEach] in a paragraph. *)
Definition renderParagraphItem (this : DocxBuilder) (data : JValue)
  (optionItem : IParagraphItem) : result (list ParagraphChild) :=
  match optionItem with
  | TextType options =>
      value <- resolveValue options data ;;
      Ok (textToRuns this options value)
  | ImageType options => Ok [ImageRun options]
  end.

(** Every call of a callback that may raise, pushes collected in order. *)
Fixpoint forEachResult {A B : Type} (callback : A -> result (list B))
  (arr : list A) : result (list B) :=
  match arr with
  | [] => Ok []
  | x :: rest =>
      pushed <- callback x ;;
      more <- forEachResult callback rest ;;
      Ok (pushed ++ more)%list
  end.

(** [arr.map(f)] for an [f] that may raise. *)
Fixpoint mapResult {A B : Type} (f : A -> result B) (arr : list A)
  : result (list B) :=
  match arr with
  | [] => Ok []
  | x :: rest =>
      y <- f x ;;
      ys <- mapResult f rest ;;
      Ok (y :: ys)
  end.

(** The [paragraphChildren] of a paragraph. *)
Definition paragraphChildren (this : DocxBuilder) (data : JValue)
  (children : list IParagraphItem) : result (list ParagraphChild) :=
  forEachResult (renderParagraphItem this data) children.

(** The callback of [children.forEach] in [renderChildren]: what one
    content item pushes onto [fileChild]. *)
Fixpoint renderContentItem (this : DocxBuilder) (data : JValue)
  (contentItem : IContent) {struct contentItem} : result (list FileChild) :=
  match contentItem with
  | ParagraphType options children =>
      runs <- paragraphChildren this data children ;;
      if (0 <? List.length runs)%nat
      then Ok [Paragraph (Some options) runs]
      else Ok []
  | EmptyParagraphType =>
      Ok [Paragraph None
            [TextRun {| text := Some ""; field := None; htmlConfig := None;
                        font := None; size := None; color := None;
                        bold := None; italics := None; underline := None;
                        strike := None; subScript := None;
                        superScript := None; break := None |}]]
  | TableType rows =>
      rendered <-
        mapResult
          (fun rowOptions : ITableRowOwnOptions *
                            list (ITableCellOwnOptions * list IContent) =>
             let (rowOwn, cells) := rowOptions in
             renderedCells <-
               mapResult
                 (fun cellOptions : ITableCellOwnOptions * list IContent =>
                    let (cellOwn, cellChildren) := cellOptions in
                    rendered <-
                      forEachResult (renderContentItem this data)
                        cellChildren ;;
                    Ok (cellOwn, rendered))
                 cells ;;
             Ok (rowOwn, renderedCells))
          rows ;;
      Ok [Table rendered]
  end.

Definition renderChildren (this : DocxBuilder) (children : IChildren)
  (data : JValue) : result (list FileChild) :=
  forEachResult (renderContentItem this data) children.

(** *** The value of a text run in the HTML renderer
    ([renderChildrenHtml], the text branch) *)

(** The [for] loop over [fieldParts] as [renderChildrenHtml] writes it: it
    stops only at a property that is [undefined]. *)
Fixpoint walkFieldPartsHtml (tmpValue : JValue) (fieldParts : list string)
  : result (JValue * bool) :=
  match fieldParts with
  | [] => Ok (tmpValue, false)
  | part :: rest =>
      next <- getProp tmpValue part ;;
      if isUndefined next then Ok (tmpValue, true)
      else walkFieldPartsHtml next rest
  end.

(** The text the HTML renderer shows for a text run: with [htmlConfig],
    the [value] bound to the control or the span; without it,
    [options.text ? options.text : ""]. *)
Definition htmlValue (options : ITextTypeOptions) (data : JValue)
  : result string :=
  match htmlConfig options with
  | Some config =>
      let field := hc_field config in
      let value := text options ?? "" in
      if truthy data then
        direct <- getProp data field ;;
        if negb (isUndefined direct) then String_ direct
        else if includes field "." then
          let fieldParts := split field "." in
          tmpValue <- JSON_parse_stringify data ;;
          walked <- walkFieldPartsHtml tmpValue fieldParts ;;
          let (tmpValue, isBreak) := walked : JValue * bool in
          if negb isBreak then String_ tmpValue else Ok value
        else Ok value
      else Ok value
  | None =>
      match text options with
      | Some t => if truthy (JStr t) then Ok t else Ok ""
      | None => Ok ""
      end
  end.

(** *** [renderChildrenHtml] *)

(** A string between double quotes. *)
Definition quoted (s : string) : string :=
  String "034" (s ++ String "034" EmptyString).

(** [s.replace(/c/g, replacement)] for a one-character pattern. *)
Fixpoint replaceChar (c : ascii) (replacement s : string) : string :=
  match s with
  | EmptyString => EmptyString
  | String c' rest =>
      if Ascii.eqb c' c then replacement ++ replaceChar c replacement rest
      else String c' (replaceChar c replacement rest)
  end.

(** [text.replace(/\t/g, "&nbsp;&nbsp;&nbsp;&nbsp;").replace(/\n/g, "<br />")] *)
Definition htmlText (value : string) : string :=
  replaceChar "010" "<br />"
    (replaceChar "009" "&nbsp;&nbsp;&nbsp;&nbsp;" value).

(** [s.repeat(count)]: a negative count raises a RangeError. *)
Definition repeatString (s : string) (count : Z) : result string :=
  if (count <? 0)%Z then Throw RangeError
  else Ok (Nat.iter (Z.to_nat count) (append s) EmptyString).

(** ToBoolean of a number: zero and [NaN] are falsy. *)
Definition truthyNumber (x : float) : bool :=
  negb (PrimFloat.eqb x 0 || PrimFloat.is_nan x).

(** [typeof v === "object"] *)
Definition typeofObject (v : JValue) : bool :=
  match v with
  | JNull | JArr _ | JObj _ => true
  | _ => false
  end.

(** The strings of a callback that may raise, appended in order. *)
Fixpoint appendResults {A : Type} (callback : A -> result string)
  (arr : list A) : result string :=
  match arr with
  | [] => Ok EmptyString
  | x :: rest =>
      one <- callback x ;;
      more <- appendResults callback rest ;;
      Ok (one ++ more)
  end.

Section Html.

(** The decimal string of a number in a template literal. *)
Variable numberString : float -> string.

(** [pStyle] *)
Definition paragraphStyle (options : IParagraphOwnOptions) : string :=
  let pStyle := "style=" ++ String "034" EmptyString in
  let pStyle :=
    match spacing options with
    | Some spacing =>
        let pStyle :=
          match before spacing with
          | Some twips =>
              if truthyNumber twips
              then pStyle ++ "padding-top: "
                   ++ numberString (twipsToPx twips) ++ "px;"
              else pStyle
          | None => pStyle
          end in
        let pStyle :=
          match after spacing with
          | Some twips =>
              if truthyNumber twips
              then pStyle ++ "padding-bottom: "
                   ++ numberString (twipsToPx twips) ++ "px;"
              else pStyle
          | None => pStyle
          end in
        match line spacing with
        | Some twips =>
            if truthyNumber twips
            then pStyle ++ "line-height: "
                 ++ numberString (twips / 240)%float ++ ";"
            else pStyle
        | None => pStyle
        end
    | None => pStyle
    end in
  pStyle ++ "text-align:" ++ (alignment options ?? "left") ++ ";"
  ++ String "034" EmptyString.

(** [spanStyle] *)
Definition spanStyle (this : DocxBuilder) (options : ITextTypeOptions)
  : string :=
  "style="
  ++ quoted
       ("font-size: "
        ++ numberString (size options ?? textSize (defaultFontSize this))
        ++ "px; font-family: " ++ (font options ?? defaultFont this)
        ++ "; color: "
        ++ match color options with
           | Some c => if truthy (JStr c) then "#" ++ c else "#000000"
           | None => "#000000"
           end
        ++ ";").

(** [breakTag] *)
Definition breakTag (options : ITextTypeOptions) : result string :=
  match break options with
  | Some count =>
      if truthy (JNum count) then repeatString "<br />" count else Ok ""
  | None => Ok ""
  end.

(** [propsStr] *)
Definition propsStr (props : option (list (string * JValue)))
  : result string :=
  match props with
  | Some entries =>
      pieces <-
        mapResult
          (fun entry : string * JValue =>
             let (key, value) := entry in
             if negb (typeofObject value)
             then shown <- String_ value ;;
                  Ok (key ++ "=" ++ quoted shown)
             else Ok "")
          entries ;;
      Ok (join " " pieces)
  | None => Ok ""
  end.

(** [optionHtml] of a select, for the current [value]. *)
Definition optionHtml (props : option (list (string * JValue)))
  (value : string) : result string :=
  match props with
  | Some entries =>
      let options := lookup "options" entries in
      if truthy options then
        match options with
        | JArr items =>
            pieces <-
              mapResult
                (fun item =>
                   itemValue <- getProp item "value" ;;
                   shownValue <- String_ itemValue ;;
                   itemLabel <- getProp item "label" ;;
                   shownLabel <- String_ itemLabel ;;
                   Ok ("<option class=" ++ quoted "docx-builder-option"
                       ++ " value=" ++ quoted shownValue ++ " "
                       ++ match itemValue with
                          | JStr s => if String.eqb value s then "selected"
                                      else ""
                          | _ => ""
                          end
                       ++ ">" ++ shownLabel ++ "</option>"))
                items ;;
            Ok (join "" pieces)
        | _ => Throw TypeError
        end
      else Ok ""
  | None => Ok ""
  end.

(** What a text item appends to [pHtml]. *)
Definition renderTextHtml (this : DocxBuilder) (data : JValue)
  (options : ITextTypeOptions) : result string :=
  let spanStyle := spanStyle this options in
  breakTag <- breakTag options ;;
  match htmlConfig options with
  | Some config =>
      let field := hc_field config in
      propsStr <- propsStr (hc_props config) ;;
      value <- htmlValue options data ;;
      match hc_name config with
      | Some input =>
          Ok (breakTag ++ "<input class=" ++ quoted "docx-builder-input"
              ++ " " ++ propsStr ++ " name=" ++ quoted field
              ++ " value=" ++ quoted value ++ " />")
      | Some textarea =>
          Ok (breakTag ++ "<textarea class="
              ++ quoted "docx-builder-textarea"
              ++ " " ++ propsStr ++ " name=" ++ quoted field ++ ">"
              ++ value ++ "</textarea>")
      | Some select =>
          optionHtml <- optionHtml (hc_props config) value ;;
          Ok (breakTag ++ "<select class=" ++ quoted "docx-builder-select"
              ++ " " ++ propsStr ++ " name=" ++ quoted field ++ ">"
              ++ optionHtml ++ "</select>")
      | _ =>
          Ok (breakTag ++ "<span " ++ spanStyle ++ ">" ++ htmlText value
              ++ "</span>")
      end
  | None =>
      Ok (breakTag ++ "<span " ++ spanStyle ++ ">"
          ++ match text options with
             | Some t => if truthy (JStr t) then htmlText t else ""
             | None => ""
             end
          ++ "</span>")
  end.

(** What an image item appends to [pHtml]: nothing when it floats. *)
Definition renderImageHtml (options : IImageTypeOptions) : string :=
  match floating options with
  | None =>
      "<img src=" ++ quoted (Types.data options)
      ++ " alt=" ++ quoted (altText options ?? "")
      ++ " width="
      ++ quoted (numberString (fst (transformation options)) ++ "px")
      ++ " height="
      ++ quoted (numberString (snd (transformation options)) ++ "px")
      ++ " />"
  | Some _ => ""
  end.

(** The callback of [options.children.forEach] in a paragraph. *)
Definition renderInlineHtml (this : DocxBuilder) (data : JValue)
  (inlineItem : IParagraphItem) : result string :=
  match inlineItem with
  | TextType options => renderTextHtml this data options
  | ImageType options => Ok (renderImageHtml options)
  end.

(** [tdAttrs] *)
Definition tdAttrs (tdItem : ITableCellOwnOptions) : string :=
  "colspan=" ++ quoted (Number_toString (columnSpan tdItem ?? 1%Z))
  ++ " rowspan=" ++ quoted (Number_toString (rowSpan tdItem ?? 1%Z))
  ++ " style="
  ++ quoted
       ("min-width: "
        ++ match width tdItem with
           | Some (inl number) =>
               if truthyNumber number then numberString number ++ "cm"
               else "auto"
           | Some (inr text) =>
               if truthy (JStr text) then text else "auto"
           | None => "auto"
           end
        ++ ";").

(** [trStyle] *)
Definition trStyle (rowItem : ITableRowOwnOptions) : string :=
  if cantSplit rowItem ?? false
  then "style=" ++ quoted "page-break-inside: avoid;"
  else "".

(** The callback of [children.forEach] in [renderChildrenHtml]: what one
    content item appends to [childrenHtml]. *)
Fixpoint renderContentItemHtml (this : DocxBuilder) (data : JValue)
  (contentItem : IContent) {struct contentItem} : result string :=
  match contentItem with
  | ParagraphType options children =>
      let pStyle := paragraphStyle options in
      pHtml <- appendResults (renderInlineHtml this data) children ;;
      Ok ("<p class=" ++ quoted "docx-builder-p" ++ " " ++ pStyle ++ ">"
          ++ pHtml ++ "</p>")
  | EmptyParagraphType => Ok "<br />"
  | TableType rows =>
      tableHtml <-
        appendResults
          (fun rowItem : ITableRowOwnOptions *
                         list (ITableCellOwnOptions * list IContent) =>
             let (rowOwn, cells) := rowItem in
             cellsHtml <-
               appendResults
                 (fun tdItem : ITableCellOwnOptions * list IContent =>
                    let (cellOwn, cellChildren) := tdItem in
                    inner <-
                      appendResults (renderContentItemHtml this data)
                        cellChildren ;;
                    Ok ("<td class=" ++ quoted "docx-builder-td" ++ " "
                        ++ tdAttrs cellOwn ++ ">" ++ inner ++ "</td>"))
                 cells ;;
             Ok ("<tr " ++ trStyle rowOwn ++ ">" ++ cellsHtml ++ "</tr>"))
          rows ;;
      Ok ("<table class=" ++ quoted "docx-builder-table" ++ ">"
          ++ tableHtml ++ "</table>")
  end.

Definition renderChildrenHtml (this : DocxBuilder) (children : IChildren)
  (data : JValue) : result string :=
  appendResults (renderContentItemHtml this data) children.

End Html.

(** *** [isChinese] *)

(** A character class is the list of its ranges; a code unit is in it
    when one of the ranges holds it. *)
Definition inClass (class : list (N * N)) (unit : N) : bool :=
  existsb (fun range : N * N =>
             (fst range <=? unit)%N && (unit <=? snd range)%N) class.

(** [class+] and then the rest of the expression, [continue], tried at
    the head of [s]: the quantifier takes a unit of the class, and as
    many more as it can before it hands over to the rest. *)
Fixpoint matchPlus (class : list (N * N)) (continue : list N -> bool)
  (s : list N) : bool :=
  match s with
  | [] => false
  | unit :: rest =>
      inClass class unit
      && (matchPlus class continue rest || continue rest)
  end.

(** [$] without the [m] flag: the end of the input. *)
Definition atEnd (s : list N) : bool :=
  match s with
  | [] => true
  | _ :: _ => false
  end.

(** [chineseWithPunctRegex]: the class of
    [/^[\u4E00-\u9FA5\u3000-\u303F\uFF00-\uFFEF]+$/]. *)
Definition chineseWithPunctRegex : list (N * N) :=
  [(0x4E00, 0x9FA5); (0x3000, 0x303F); (0xFF00, 0xFFEF)]%N.

(** [isChinese(str)], on the code units of [str]: [^] lets the expression
    be tried at the first unit only. *)
Definition isChinese (str : list N) : bool :=
  matchPlus chineseWithPunctRegex atEnd str.

End DocxBuilder.
Import DocxBuilder.

(** ** The document [renderHtml] injects its stylesheet into *)

Module Dom.

Record Element : Type := {
  tagName : string;
  elementId : string;
  textContent : string
}.

(** The elements below [document.head] and below [document.body], in tree
    order. *)
Record Document : Type := {
  headElements : list Element;
  bodyElements : list Element
}.

(** [document.getElementById(id)]: the first element with that id. *)
Definition getElementById (document : Document) (id : string)
  : option Element :=
  find (fun e => String.eqb (elementId e) id)
    (headElements document ++ bodyElements document).

(** [document.head.appendChild(e)] *)
Definition appendToHead (document : Document) (e : Element) : Document :=
  {| headElements := headElements document ++ [e];
     bodyElements := bodyElements document |}.

End Dom.
Import Dom.

Module HtmlFacade.

Definition dquote : string := String "034" EmptyString.

(** The stylesheet text of [injectStyle]. *)
Definition styleText : string := "
        .docx-builder-section {
          background-color: #fff;
        }
        .docx-builder-p {
          margin: 0;
        }
        .docx-builder-table {
          border-collapse: collapse;
          width: 100%;
        }
        .docx-builder-td {
          border: 1px solid #dddddd;
          padding: 0 6px;
        }
        .docx-builder-input,
        .docx-builder-textarea,
        .docx-builder-select {
          height: 32px;
          line-height: 1.3;
          border: 1px solid #eee;
          background-color: #fff;
          color: rgba(0, 0, 0, .85);
          border-radius: 2px;
          outline: 0;
          transition: all .3s;
          box-sizing: border-box;
        }
        .docx-builder-input:hover,
        .docx-builder-textarea:hover,
        .docx-builder-select:hover {
          border-color: #d2d2d2;
        }
        .docx-builder-input:focus,
        .docx-builder-textarea:focus,
        .docx-builder-select:focus {
          border-color: #409eff;
          box-shadow: 0 0 0 3px rgba(22,183,119,.08);
        }
        .docx-builder-input {
          padding-left: 10px;
        }
        .docx-builder-textarea {
          min-height: 80px;
          line-height: 20px;
          padding: 6px 10px;
          resize: vertical;
        }
        .docx-builder-select {
          padding: 0 15px;
          cursor: pointer;
        }
        .docx-builder-option {
        }
      ".

(** [injectStyle(id)]: the style element, and the document after the
    call. *)
Definition injectStyle (id : string) (document : Document)
  : Element * Document :=
  match getElementById document id with
  | Some style => (style, document)
  | None =>
      let style := {| tagName := "style"; elementId := id;
                      textContent := styleText |} in
      (style, appendToHead document style)
  end.

Section RenderHtml.

(** The markup of a content sequence, which builds strings and touches
    no document. *)
Variable renderChildrenHtml :
  DocxBuilder -> IChildren -> JValue -> result string.

Definition renderSlotHtml (this : DocxBuilder) (slot : option IChildren)
  (data : JValue) : result string :=
  match slot with
  | Some children => renderChildrenHtml this children data
  | None => Ok ""
  end.

Definition renderHeadersHtml (this : DocxBuilder)
  (headers : option ISlots) (data : JValue) : result string :=
  match headers with
  | None => Ok ""
  | Some slots =>
      defaultHeader <- renderSlotHtml this (defaultSlot slots) data ;;
      firstHeader <- renderSlotHtml this (firstSlot slots) data ;;
      evenHeader <- renderSlotHtml this (evenSlot slots) data ;;
      Ok (defaultHeader ++ firstHeader ++ evenHeader)
  end.

Definition renderFootersHtml (this : DocxBuilder)
  (footers : option ISlots) (data : JValue) : result string :=
  match footers with
  | None => Ok ""
  | Some slots =>
      defaultFooter <- renderSlotHtml this (defaultSlot slots) data ;;
      firstFooter <- renderSlotHtml this (firstSlot slots) data ;;
      evenFooter <- renderSlotHtml this (evenSlot slots) data ;;
      Ok (defaultFooter ++ firstFooter ++ evenFooter)
  end.

(** The callback of [this.sections.forEach] in [renderHtml]: what one
    section appends to [html]. *)
Definition renderSectionHtml (this : DocxBuilder) (data : JValue)
  (section : ISection) (index : nat) : result string :=
  let pageBreak :=
    if (Z.of_nat index =? Z.of_nat (List.length (sections this)) - 1)%Z
    then "auto" else "always" in
  header <- renderHeadersHtml this (headers section) data ;;
  body <- renderChildrenHtml this (sectionChildren section) data ;;
  footer <- renderFootersHtml this (footers section) data ;;
  Ok ("<div class=" ++ dquote ++ "docx-builder-section" ++ dquote
      ++ " style=" ++ dquote ++ "page-break-after: " ++ pageBreak ++ ";"
      ++ dquote ++ ">"
      ++ "<div class=" ++ dquote ++ "docx-builder-header" ++ dquote ++ ">"
      ++ header ++ "</div>"
      ++ "<div class=" ++ dquote ++ "docx-builder-body" ++ dquote ++ ">"
      ++ body ++ "</div>"
      ++ "<div class=" ++ dquote ++ "docx-builder-footer" ++ dquote ++ ">"
      ++ footer ++ "</div>"
      ++ "</div>").

Fixpoint renderSectionsHtml (this : DocxBuilder) (data : JValue)
  (index : nat) (rest : list ISection) : result string :=
  match rest with
  | [] => Ok ""
  | section :: rest' =>
      one <- renderSectionHtml this data section index ;;
      more <- renderSectionsHtml this data (S index) rest' ;;
      Ok (one ++ more)
  end.

(** [renderHtml(data)]: the returned markup (or the exception raised
    while building it) and the document after the call. *)
Definition renderHtml (this : DocxBuilder) (data : JValue)
  (document : Document) : result string * Document :=
  match renderSectionsHtml this data 0 (sections this) with
  | Throw e => (Throw e, document)
  | Ok html =>
      let (_, document') := injectStyle "docx-builder-style" document in
      (Ok ("<div id=" ++ dquote ++ id this ++ dquote ++ ">"
           ++ html ++ "</div>"),
       document')
  end.

(** A sequence of [renderHtml] calls, by any instances with any data,
    against one document. *)
Fixpoint renderHtmlCalls (calls : list (DocxBuilder * JValue))
  (document : Document) : Document :=
  match calls with
  | [] => document
  | (this, data) :: rest =>
      renderHtmlCalls rest (snd (renderHtml this data document))
  end.

End RenderHtml.

(** [new DocxBuilder()]: the instance, and the static [count] after it.
    [count] is a number the code counts with, printed as its numeral. *)
Definition construct (count : Z) : DocxBuilder * Z :=
  ({| id := "docx-builder" ++ numberToString count;
      sections := [];
      defaultFont := "Arial";
      defaultFontSize := Points 10 |},
   (count + 1)%Z).

End HtmlFacade.
Import HtmlFacade.

(** ** Vocabulary of the statements *)

(** A text run with the given default text, field and html configuration,
    and no other option. *)
Definition textRun (default : option string) (path : option string)
  (config : option IHtmlConfig) : ITextTypeOptions :=
  {| text := default; field := path; htmlConfig := config;
     font := None; size := None; color := None; bold := None;
     italics := None; underline := None; strike := None;
     subScript := None; superScript := None; break := None |}.

(** [resolve(dataBag, fieldPath, defaultValue)] of the specification, as the
    binary renderer computes it for a run bound to [fieldPath]. *)
Definition resolve (dataBag : JValue) (fieldPath default : string)
  : result string :=
  resolveValue (textRun (Some default) (Some fieldPath) None) dataBag.

(** The run [options] with its [field] replaced. *)
Definition setField (options : ITextTypeOptions) (path : option string)
  : ITextTypeOptions :=
  {| text := text options; field := path; htmlConfig := htmlConfig options;
     font := font options; size := size options; color := color options;
     bold := bold options; italics := italics options;
     underline := underline options; strike := strike options;
     subScript := subScript options; superScript := superScript options;
     break := break options |}.

(** The run [options] with its [htmlConfig] replaced. *)
Definition setHtmlConfig (options : ITextTypeOptions)
  (config : option IHtmlConfig) : ITextTypeOptions :=
  {| text := text options; field := field options; htmlConfig := config;
     font := font options; size := size options; color := color options;
     bold := bold options; italics := italics options;
     underline := underline options; strike := strike options;
     subScript := subScript options; superScript := superScript options;
     break := break options |}.

(** The data bags of the specification's examples. *)
Definition flatBag : JValue :=
  JObj [("inspect.0.level", JStr "S-1")].

Definition nestedBag : JValue :=
  JObj [("a", JObj [("b", JObj [("c", JStr "X")])])].

Definition leaflessBag : JValue :=
  JObj [("a", JObj [("b", JObj [])])].

(** A bag that answers ["inspect.0.level"] both as a literal key and along
    the dotted path. *)
Definition bothBag : JValue :=
  JObj [("inspect", JArr [JObj [("level", JStr "walked")]]);
        ("inspect.0.level", JStr "S-1")].

(** A freshly constructed builder. *)
Definition newBuilder : DocxBuilder := fst (construct 0).

(** A run that names its field only through [field]. *)
Definition fieldOnlyRun : ITextTypeOptions :=
  textRun (Some "default") (Some "name") None.

(** A run whose [field] and [htmlConfig.field] differ. *)
Definition twoFieldsRun : ITextTypeOptions :=
  textRun (Some "default") (Some "a")
    (Some {| hc_field := "b"; hc_name := None; hc_props := None |}).

(** A run bound through [htmlConfig.field] alone. *)
Definition configRun (path : string) : ITextTypeOptions :=
  textRun (Some "default") None
    (Some {| hc_field := path; hc_name := None; hc_props := None |}).

(** The sixteen size tokens, in the order of [fontSizeMap]. *)
Definition sizeTokens : list IChineseFontSize :=
  [初号; 小初; 一号; 小一; 二号; 小二; 三号; 小三;
   四号; 小四; 五号; 小五; 六号; 小六; 七号; 八号].

(** The integers [z], ..., [z + n - 1] as floats. *)
Fixpoint floatsFrom (z : Z) (n : nat) : list float :=
  match n with
  | O => []
  | S n' => floatOfZ z :: floatsFrom (z + 1) n'
  end.

(** The integers [0], ..., [n - 1] as floats. *)
Definition firstFloats (n : nat) : list float := floatsFrom 0 n.

(** The [break] and the [text] a run was constructed with. *)
Definition breakOf (run : ParagraphChild) : option Z :=
  match run with
  | TextRun options => break options
  | ImageRun _ => None
  end.

Definition textOf (run : ParagraphChild) : option string :=
  match run with
  | TextRun options => text options
  | ImageRun _ => None
  end.

(** The breaks of a sequence of runs, added up. *)
Definition totalBreaks (runs : list ParagraphChild) : Z :=
  fold_right (fun run total => (breakOf run ?? 0) + total)%Z 0%Z runs.

(** The break of a run as the specification words it: a break on every
    run but the first item of the first line. *)
Definition statedBreak (lineIndex itemIndex : nat) : Z :=
  if (lineIndex =? 0)%nat && (itemIndex =? 0)%nat then 0%Z else 1%Z.

Definition statedBreaks (lines : list (list Part)) : list (option Z) :=
  forEachPush
    (fun line lineIndex =>
       forEachPush
         (fun _ itemIndex => [Some (statedBreak lineIndex itemIndex)])
         0 line)
    0 lines.

Definition newline : string := String "010" EmptyString.

(** The paragraph an [emptyParagraph] item is rendered to. *)
Definition blankParagraph : FileChild :=
  Paragraph None [TextRun (textRun (Some "") None None)].

(** The runs of the items of one line, counted from [k], for a line of
    [n] items. *)
Definition itemRuns (this : DocxBuilder) (options : ITextTypeOptions)
  (lineIndex n k : nat) (items : list Part) : list ParagraphChild :=
  forEachPush
    (fun item itemIndex =>
       [TextRun (textRunOptions this options item lineIndex itemIndex n)])
    k items.

(** The specification's wording of the breaks of a run without an explicit
    [break]. *)
Definition breaksAsStated (this : DocxBuilder) (options : ITextTypeOptions)
  (value : string) : Prop :=
  break options = None ->
  map breakOf (textToRuns this options value) = statedBreaks (parseText value).

(** The wording of the claim about a leading newline: the empty line
    leaves no text primitive and no break. *)
Definition leadingNewlineIsLost (this : DocxBuilder)
  (options : ITextTypeOptions) (value : string) : Prop :=
  textToRuns this options (newline ++ value) = textToRuns this options value.

(** The id every [renderHtml] injects its stylesheet under. *)
Definition styleId : string := "docx-builder-style".

(** The elements of a document that carry [id]. *)
Definition withId (id : string) (document : Document) : list Element :=
  filter (fun e => String.eqb (elementId e) id)
    (headElements document ++ bodyElements document).

(** The style element [injectStyle] creates. *)
Definition styleElement (id : string) : Element :=
  {| tagName := "style"; elementId := id; textContent := styleText |}.

(** The stretch of the line a part was read from: a text part is its
    value, a tag part its value between the tags. *)
Definition unparse (part : Part) : string :=
  if String.eqb (type part) "text" then value part
  else openTag (type part) ++ value part ++ closeTag (type part).

(** The stretches of a sequence of parts, one after the other. *)
Definition sourceOf (parts : list Part) : string :=
  fold_right (fun part rest => unparse part ++ rest) "" parts.

(** Two matches share no offset. *)
Definition disjoint (m1 m2 : Match) : Prop :=
  matchEnd m1 <= matchStart m2 \/ matchEnd m2 <= matchStart m1.


(** A match lies in [line] and spans its tags around its value. *)
Definition spansTag (line : string) (m : Match) : Prop :=
  matchEnd m <= String.length line
  /\ matchStart m < matchEnd m
  /\ slice line (matchStart m) (matchEnd m)
     = openTag (matchType m) ++ matchValue m ++ closeTag (matchType m).

(** Matches that follow one another from [lo] on without overlap. *)
Fixpoint chain (lo : nat) (matches : list Match) : Prop :=
  match matches with
  | [] => True
  | m :: rest =>
      lo <= matchStart m /\ matchStart m < matchEnd m
      /\ chain (matchEnd m) rest
  end.


(** The images among the items of a paragraph, and among its runs. *)
Definition imagesOf (children : list IParagraphItem)
  : list IImageTypeOptions :=
  flat_map (fun item => match item with
                        | ImageType options => [options]
                        | TextType _ => []
                        end) children.

Definition imageRunsOf (runs : list ParagraphChild)
  : list IImageTypeOptions :=
  flat_map (fun run => match run with
                       | ImageRun options => [options]
                       | TextRun _ => []
                       end) runs.

(** No object binds a key twice, at any depth: the association lists that
    stand for objects. *)
Fixpoint uniqueKeys (v : JValue) : Prop :=
  match v with
  | JArr elements =>
      (fix all (es : list JValue) : Prop :=
         match es with
         | [] => True
         | e :: rest => uniqueKeys e /\ all rest
         end) elements
  | JObj properties =>
      NoDup (map fst properties)
      /\ (fix all (ps : list (string * JValue)) : Prop :=
            match ps with
            | [] => True
            | (_, e) :: rest => uniqueKeys e /\ all rest
            end) properties
  | _ => True
  end.

(** The property list of a copied object. *)
Fixpoint copyProperties (ps : list (string * JValue))
  : list (string * JValue) :=
  match ps with
  | [] => []
  | (k, JUndefined) :: rest => copyProperties rest
  | (k, e) :: rest => (k, jsonCopy e) :: copyProperties rest
  end.

(** Some character of [s] is a line terminator. *)
Fixpoint hasLineTerminator (s : string) : bool :=
  match s with
  | EmptyString => false
  | String c rest => lineTerminator c || hasLineTerminator rest
  end.

(** The text part of a stretch of the line, none for an empty stretch. *)
Definition textPart (s : string) : list Part :=
  if String.eqb s "" then [] else [{| type := "text"; value := s |}].

(** The newlines of a string. *)
Fixpoint countNewlines (s : string) : nat :=
  match s with
  | EmptyString => 0
  | String c rest =>
      (if Ascii.eqb c "010" then 1 else 0) + countNewlines rest
  end.

(** The styles of a run: bold, italics, underline, strike, subscript and
    superscript. *)
Definition stylesOf (options : ITextTypeOptions)
  : option bool * option bool * option Underline
    * option bool * option bool * option bool :=
  (bold options, italics options, underline options,
   strike options, subScript options, superScript options).

(** How many of the six styles a run has switched on. *)
Definition styleCount (options : ITextTypeOptions) : nat :=
  (if bold options ?? false then 1 else 0)
  + (if italics options ?? false then 1 else 0)
  + (match underline options with Some _ => 1 | None => 0 end)
  + (if strike options ?? false then 1 else 0)
  + (if subScript options ?? false then 1 else 0)
  + (if superScript options ?? false then 1 else 0).

(** [count] builders constructed one after the other, and the static
    counter after them. *)
Fixpoint constructMany (howMany : nat) (count : Z)
  : list DocxBuilder * Z :=
  match howMany with
  | O => ([], count)
  | S howMany' =>
      let (builder, count') := construct count in
      let (builders, count'') := constructMany howMany' count' in
      (builder :: builders, count'')
  end.

(** The resolution of [resolveValue] with the walk made over the bag
    itself instead of its copy. *)
Definition resolveValueInPlace (options : ITextTypeOptions) (data : JValue)
  : result string :=
  let value := text options ?? "" in
  match fieldOf options with
  | None => Ok value
  | Some field =>
      if truthy data && negb (String.eqb field "") then
        direct <- getProp data field ;;
        if negb (isUndefined direct) then String_ direct
        else if includes field "." then
          walked <- walkFieldParts data (split field ".") ;;
          let (tmpValue, isBreak) := walked : JValue * bool in
          if negb isBreak then String_ tmpValue else Ok value
        else Ok value
      else Ok value
  end.

(** An image item that floats. *)
Definition floatingImage (item : IParagraphItem) : bool :=
  match item with
  | ImageType options =>
      match floating options with Some _ => true | None => false end
  | TextType _ => false
  end.

(** No text run of the item, at any depth, has an [htmlConfig]. *)
Fixpoint noHtmlConfig (contentItem : IContent) : Prop :=
  match contentItem with
  | ParagraphType _ children =>
      Forall (fun item => match item with
                          | TextType options => htmlConfig options = None
                          | ImageType _ => True
                          end) children
  | EmptyParagraphType => True
  | TableType rows =>
      (fix allRows (rs : list (ITableRowOwnOptions *
                               list (ITableCellOwnOptions * list IContent)))
         : Prop :=
         match rs with
         | [] => True
         | (_, cells) :: rest =>
             (fix allCells (cs : list (ITableCellOwnOptions * list IContent))
                : Prop :=
                match cs with
                | [] => True
                | (_, children) :: rest' =>
                    (fix allChildren (items : list IContent) : Prop :=
                       match items with
                       | [] => True
                       | item :: rest'' =>
                           noHtmlConfig item /\ allChildren rest''
                       end) children
                    /\ allCells rest'
                end) cells
             /\ allRows rest
         end) rows
  end.

(** A run with a default text and an explicit [break]. *)
Definition runWithBreak (default : string) (count : Z) : ITextTypeOptions :=
  {| text := Some default; field := None; htmlConfig := None;
     font := None; size := None; color := None; bold := None;
     italics := None; underline := None; strike := None;
     subScript := None; superScript := None; break := Some count |}.

(** An image that stays in the line. *)
Definition picture : IImageTypeOptions :=
  {| Types.data := "data:image/png;base64,"; transformation := (1, 1)%float;
     floating := None; altText := None |}.

(** A run with nothing but a default text. *)
Definition plainRun (default : string) : ITextTypeOptions :=
  textRun (Some default) None None.


(** No object of [v], at any depth, has an own member named [toString]. *)
Fixpoint printable (v : JValue) : bool :=
  match v with
  | JArr elements => forallb printable elements
  | JObj properties =>
      negb (hasOwn "toString" properties)
      && forallb (fun property : string * JValue => printable (snd property))
           properties
  | _ => true
  end.



(** Descending [parts] from [v] through truthy properties ends at [final]. *)
Inductive descends : JValue -> list string -> JValue -> Prop :=
| descends_done v : descends v [] v
| descends_step v part next rest final :
    getProp v part = Ok next ->
    truthy next = true ->
    descends next rest final ->
    descends v (part :: rest) final.

(** Descending [parts] from [v] meets a property that is missing or
    falsy. *)
Inductive misses : JValue -> list string -> Prop :=
| misses_here v part next rest :
    getProp v part = Ok next ->
    truthy next = false ->
    misses v (part :: rest)
| misses_later v part next rest :
    getProp v part = Ok next ->
    truthy next = true ->
    misses next rest ->
    misses v (part :: rest).

(** ** Field resolution *)

Section FieldResolution.

(** Induction over values through the elements of arrays and the
    properties of objects. *)
Lemma JValue_nested_ind (P : JValue -> Prop) :
  P JUndefined -> P JNull ->
  (forall b, P (JBool b)) -> (forall n, P (JNum n)) ->
  (forall s, P (JStr s)) ->
  (forall elements, Forall P elements -> P (JArr elements)) ->
  (forall properties,
     Forall (fun property : string * JValue => P (snd property)) properties ->
     P (JObj properties)) ->
  forall v, P v.
Proof.
  intros Hu Hn Hb Hz Hs Ha Ho.
  refine (fix go (v : JValue) : P v :=
            match v with
            | JUndefined => Hu
            | JNull => Hn
            | JBool b => Hb b
            | JNum n => Hz n
            | JStr s => Hs s
            | JArr elements => Ha elements _
            | JObj properties => Ho properties _
            end).
  - induction elements as [|e rest IH]; constructor; [apply go|exact IH].
  - induction properties as [|[k e] rest IH]; constructor;
      [apply go|exact IH].
Qed.

Lemma truthy_getProp_returns v k :
  truthy v = true -> returns (getProp v k).
Proof.
  unfold returns.
  destruct v as [| |b|n|s|elements|properties]; simpl; intro Hv;
    try discriminate; eauto.
  - destruct (String.eqb k "length"); eauto.
    destruct (arrayIndex k) as [i|]; eauto.
    destruct (String.get i s); eauto.
  - destruct (String.eqb k "length"); eauto.
    destruct (arrayIndex k); eauto.
Qed.


Lemma truthy_JSON_parse_stringify v :
  truthy v = true -> JSON_parse_stringify v = Ok (jsonCopy v).
Proof. destruct v; simpl; auto; discriminate. Qed.




(** The two outcomes exclude each other and exhaust the walks from a
    truthy start. *)
Lemma descends_or_misses parts :
  forall v, truthy v = true ->
            (exists final, descends v parts final) \/ misses v parts.
Proof.
  induction parts as [|part rest IH]; intros v Hv.
  - left; exists v; constructor.
  - destruct (truthy_getProp_returns v part Hv) as [next Hnext].
    destruct (truthy next) eqn:Hn.
    + destruct (IH next Hn) as [[final Hd]|Hm].
      * left; exists final; econstructor; eauto.
      * right; eapply misses_later; eauto.
    + right; eapply misses_here; eauto.
Qed.

Lemma eqb_empty_false path : path <> "" -> String.eqb path "" = false.
Proof. intro H. apply String.eqb_neq. exact H. Qed.

Lemma isUndefined_false v : v <> JUndefined -> isUndefined v = false.
Proof. destruct v; simpl; congruence. Qed.

(** A literal key is read before anything else. *)
Lemma resolveValue_literal options data path v :
  fieldOf options = Some path -> path <> "" -> truthy data = true ->
  getProp data path = Ok v -> v <> JUndefined ->
  resolveValue options data = String_ v.
Proof.
  intros Hf Hp Hd Hg Hv. unfold resolveValue.
  rewrite Hf, Hd, (eqb_empty_false _ Hp); simpl.
  rewrite Hg; simpl. rewrite (isUndefined_false _ Hv); reflexivity.
Qed.


(** C1. If the field path of a run is a literal key of the data bag, the
    run's value is the (stringified) value under that key, whatever a
    dotted walk would find; otherwise a dotted path is walked segment by
    segment: [resolve] answers ["S-1"] on the flat bag and on the bag
    that has both, ["X"] on the nested bag, and the default on the bag
    whose leaf is missing. *)
Theorem C1_literal_key_then_dotted_walk :
  (forall options properties path v,
      fieldOf options = Some path -> path <> "" ->
      lookup path properties = v -> v <> JUndefined ->
      resolveValue options (JObj properties) = String_ v)
  /\ (forall default, resolve flatBag "inspect.0.level" default = Ok "S-1")
  /\ (forall default, resolve bothBag "inspect.0.level" default = Ok "S-1")
  /\ (forall default, resolve nestedBag "a.b.c" default = Ok "X")
  /\ (forall default, resolve leaflessBag "a.b.c" default = Ok default).
Proof.
  split; [|repeat split; intro default; reflexivity].
  intros options properties path v Hf Hp Hl Hv.
  apply resolveValue_literal with (path := path); auto.
  simpl. rewrite Hl. reflexivity.
Qed.

Lemma C1_witness :
  resolveValue (textRun (Some "default") None
                  (Some {| hc_field := "level"; hc_name := None;
                           hc_props := None |}))
    (JObj [("level", JNum 7)]) = Ok "7".
Proof.
  apply (proj1 C1_literal_key_then_dotted_walk)
    with (path := "level") (v := JNum 7).
  - reflexivity.
  - discriminate.
  - reflexivity.
  - discriminate.
Defined.

(** C2. A run with both [field] and [htmlConfig.field] is resolved with
    [field]: its value is [resolve] at [field], and no [htmlConfig] changes
    it; [htmlConfig.field] is the path only of a run without [field]. *)
Theorem C2_explicit_field_wins options data path config :
  field options = Some path ->
  htmlConfig options = Some config ->
  resolveValue options data = resolve data path (text options ?? "")
  /\ (forall other,
        resolveValue (setHtmlConfig options other) data
        = resolveValue options data)
  /\ fieldOf (setField options None) = Some (hc_field config).
Proof.
  intros Hf Hc. repeat split.
  - unfold resolve, resolveValue, fieldOf. rewrite Hf. reflexivity.
  - intro other. unfold resolveValue, fieldOf. simpl. rewrite Hf.
    reflexivity.
  - unfold fieldOf. simpl. rewrite Hc. reflexivity.
Qed.

Lemma C2_witness :
  resolveValue
    (textRun (Some "default") (Some "a")
       (Some {| hc_field := "b"; hc_name := None; hc_props := None |}))
    (JObj [("a", JStr "from field"); ("b", JStr "from htmlConfig")])
  = Ok "from field".
Proof.
  rewrite (proj1 (C2_explicit_field_wins
                    (textRun (Some "default") (Some "a")
                       (Some {| hc_field := "b"; hc_name := None;
                                hc_props := None |}))
                    (JObj [("a", JStr "from field");
                           ("b", JStr "from htmlConfig")])
                    "a" _ eq_refl eq_refl)).
  reflexivity.
Defined.

(** The elements of an array are converted one after the other. *)
Lemma String_array elements :
  String_ (JArr elements)
  = (pieces <- mapResult (fun e => match e with
                                   | JUndefined | JNull => Ok ""
                                   | _ => String_ e
                                   end) elements ;;
     Ok (join "," pieces)).
Proof.
  cbn [String_]. f_equal.
  induction elements as [|e rest IH]; [reflexivity|].
  cbn [mapResult]. rewrite <- IH. reflexivity.
Qed.


Lemma hasOwn_copy k properties :
  hasOwn k properties = false -> hasOwn k (copyProperties properties) = false.
Proof.
  induction properties as [|[k' e] rest IH]; intro H; [reflexivity|].
  cbn [hasOwn] in H. apply orb_false_elim in H. destruct H as [Hk Hrest].
  destruct e; cbn [copyProperties hasOwn]; try rewrite Hk; cbn [orb];
    apply IH; exact Hrest.
Qed.


Lemma printable_lookup k properties :
  forallb (fun property : string * JValue => printable (snd property))
    properties = true ->
  printable (lookup k properties) = true.
Proof.
  induction properties as [|[k' e] rest IH]; intro H; [reflexivity|].
  cbn [forallb snd] in H. apply andb_prop in H. destruct H as [He Hrest].
  cbn [lookup]. destruct (String.eqb k k'); [exact He|apply IH; exact Hrest].
Qed.

Lemma printable_nth i : forall elements,
  forallb printable elements = true ->
  printable (nth i elements JUndefined) = true.
Proof.
  induction i as [|i IH]; intros [|e rest] H; try reflexivity;
    cbn [forallb] in H; apply andb_prop in H; destruct H as [He Hrest].
  - exact He.
  - apply IH. exact Hrest.
Qed.

(** What is read from a value without own [toString] has none either. *)
Lemma printable_getProp v k x :
  printable v = true -> getProp v k = Ok x -> printable x = true.
Proof.
  intros Hp Hg. destruct v as [| |b|n|s|elements|properties];
    cbn [getProp] in Hg; try discriminate.
  - injection Hg as <-. reflexivity.
  - injection Hg as <-. reflexivity.
  - destruct (String.eqb k "length"); [injection Hg as <-; reflexivity|].
    destruct (arrayIndex k) as [i|]; [|injection Hg as <-; reflexivity].
    destruct (String.get i s); injection Hg as <-; reflexivity.
  - destruct (String.eqb k "length"); [injection Hg as <-; reflexivity|].
    destruct (arrayIndex k) as [i|]; [|injection Hg as <-; reflexivity].
    injection Hg as <-. apply printable_nth. exact Hp.
  - injection Hg as <-. cbn [printable] in Hp. apply andb_prop in Hp.
    apply printable_lookup. apply Hp.
Qed.

Lemma walkFieldParts_printable parts : forall v final isBreak,
  printable v = true -> truthy v = true ->
  walkFieldParts v parts = Ok (final, isBreak) -> printable final = true.
Proof.
  induction parts as [|part rest IH]; intros v final isBreak Hp Hv Hw;
    cbn [walkFieldParts] in Hw.
  - injection Hw as <- _. exact Hp.
  - destruct (truthy_getProp_returns v part Hv) as [next Hnext].
    rewrite Hnext in Hw. cbn [bind] in Hw.
    destruct (truthy next) eqn:Hn; cbn [negb] in Hw.
    + apply (IH next final isBreak); auto.
      apply (printable_getProp v part next Hp Hnext).
    + injection Hw as <- _. exact Hp.
Qed.








End FieldResolution.

(** ** The two renderers on one run *)

Section RendererParity.

(** Where the two renderers read the same literal key, they show the same
    value. *)
Lemma htmlValue_literal_agrees options data config v :
  field options = None ->
  htmlConfig options = Some config ->
  hc_field config <> "" ->
  truthy data = true ->
  getProp data (hc_field config) = Ok v -> v <> JUndefined ->
  htmlValue options data = resolveValue options data.
Proof.
  intros Hf Hc Hp Hd Hg Hv.
  rewrite (resolveValue_literal options data (hc_field config) v);
    auto.
  - unfold htmlValue. rewrite Hc, Hd, Hg; simpl.
    rewrite (isUndefined_false _ Hv). reflexivity.
  - unfold fieldOf. rewrite Hf, Hc. reflexivity.
Qed.

(** C4 (the code departs from the claim).  The HTML renderer never reads
    [options.field]: a run bound through [field] alone keeps its default
    text, and a run with both is resolved with [htmlConfig.field].  Its
    walk also stops only at [undefined], so a falsy leaf is shown where
    the binary renderer falls back, and a [null] on the way raises. *)
Theorem C4_html_value_diverges :
  resolveValue fieldOnlyRun (JObj [("name", JStr "Ada")]) = Ok "Ada"
  /\ htmlValue fieldOnlyRun (JObj [("name", JStr "Ada")]) = Ok "default"
  /\ resolveValue twoFieldsRun (JObj [("a", JStr "A"); ("b", JStr "B")])
     = Ok "A"
  /\ htmlValue twoFieldsRun (JObj [("a", JStr "A"); ("b", JStr "B")])
     = Ok "B"
  /\ resolveValue (configRun "a.b") (JObj [("a", JObj [("b", JNum 0)])])
     = Ok "default"
  /\ htmlValue (configRun "a.b") (JObj [("a", JObj [("b", JNum 0)])])
     = Ok "0"
  /\ resolveValue (configRun "a.b") (JObj [("a", JNull)]) = Ok "default"
  /\ htmlValue (configRun "a.b") (JObj [("a", JNull)]) = Throw TypeError.
Proof. repeat split; reflexivity. Qed.

End RendererParity.

(** ** Unit helpers *)

Section UnitHelpers.

Local Open Scope float_scope.

(** [Math.round] on halves and near them. *)
Lemma Math_round_examples :
  map Math_round [2.5; -2.5; 0.5; -0.5; 0.49999999999999994; 37.8; 566.93]
  = [3; -2; 1; -0; 0; 38; 567].
Proof. vm_compute. reflexivity. Qed.

(** C10. The helpers are the rounded binary64 products of the source:
    [cmToTwips 1 = 567], [twipsToPx 567 = 38], [textSize 12 = 24],
    [textSize "五号" = 21], and the sixteen tokens give the half-points of
    their table entries.  The product is the binary64 one:
    [cmToTwips 50 = 28346].  On whole twips up to a page's size the
    quotient [96 / 1440] may be taken before or after the product. *)
Theorem C10_unit_helpers :
  cmToTwips 1 = 567
  /\ twipsToPx 567 = 38
  /\ textSize (Points 12) = 24
  /\ textSize (Named 五号) = 21
  /\ map (fun token => textSize (Named token)) sizeTokens
     = [84; 72; 52; 48; 44; 36; 32; 30; 28; 24; 21; 18; 15; 13; 11; 10]
  /\ (forall cm, cmToTwips cm = Math_round (cm * 566.93))
  /\ (forall twips, twipsToPx twips = Math_round (twips * (96 / 1440)))
  /\ (forall points, textSize (Points points) = Math_round (points * 2))
  /\ cmToTwips 50 = 28346
  /\ forallb (fun twips =>
                PrimFloat.Leibniz.eqb (twipsToPx twips)
                  (Math_round (twips * 96 / 1440)))
       (firstFloats 31681) = true.
Proof.
  repeat match goal with |- _ /\ _ => split end;
    lazymatch goal with
    | |- forall _, _ => intro; reflexivity
    | |- _ => vm_compute; reflexivity
    end.
Qed.

End UnitHelpers.

(** ** Lines, breaks and empty paragraphs in the binary renderer *)

Section BinaryRenderer.

Variable this : DocxBuilder.

Lemma forEachPush_app {A B : Type} (f : A -> nat -> list B) l1 :
  forall k l2,
    forEachPush f k (l1 ++ l2)
    = (forEachPush f k l1 ++ forEachPush f (k + List.length l1) l2)%list.
Proof.
  induction l1 as [|x l1 IH]; intros k l2; simpl.
  - rewrite Nat.add_0_r. reflexivity.
  - rewrite IH, <- app_assoc. do 3 f_equal. lia.
Qed.

Lemma forEachResult_app {A B : Type} (f : A -> result (list B)) l1 l2 :
  forEachResult f (l1 ++ l2)
  = (a <- forEachResult f l1 ;;
     b <- forEachResult f l2 ;;
     Ok (a ++ b)%list).
Proof.
  induction l1 as [|x l1 IH]; simpl.
  - destruct (forEachResult f l2); reflexivity.
  - destruct (f x) as [pushed|e]; simpl; [|reflexivity].
    rewrite IH.
    destruct (forEachResult f l1) as [a|e]; simpl; [|reflexivity].
    destruct (forEachResult f l2) as [b|e]; simpl; [|reflexivity].
    rewrite app_assoc. reflexivity.
Qed.

Lemma itemRuns_explicit options b lineIndex n items :
  break options = Some b ->
  forall k, Forall (fun run => breakOf run = Some b)
              (itemRuns this options lineIndex n k items).
Proof.
  intro Hb. induction items as [|item rest IH]; intro k; simpl.
  - constructor.
  - constructor; [|apply IH]. simpl. rewrite Hb. reflexivity.
Qed.

Lemma itemRuns_first_line options n items :
  break options = None ->
  forall k, Forall (fun run => breakOf run = Some 0%Z)
              (itemRuns this options 0 n k items).
Proof.
  intro Hb. induction items as [|item rest IH]; intro k; simpl.
  - constructor.
  - constructor; [|apply IH]. simpl. rewrite Hb. reflexivity.
Qed.

(** On a later line the break sits on the item that closes the line. *)
Lemma computedBreak_later lineIndex itemIndex n :
  lineIndex <> 0%nat ->
  computedBreak lineIndex itemIndex n
  = (if (S itemIndex =? n)%nat then 1 else 0)%Z.
Proof.
  intro Hl. unfold computedBreak.
  replace (lineIndex =? 0)%nat with false
    by (symmetry; apply Nat.eqb_neq; exact Hl).
  cbv [negb andb].
  destruct (Nat.eqb_spec (S itemIndex) n) as [He|He].
  - replace (Z.of_nat itemIndex =? Z.of_nat n - 1)%Z with true;
      [reflexivity|]. symmetry. apply Z.eqb_eq. lia.
  - replace (Z.of_nat itemIndex =? Z.of_nat n - 1)%Z with false;
      [reflexivity|]. symmetry. apply Z.eqb_neq. lia.
Qed.

Local Arguments Nat.eqb : simpl never.

Lemma itemRuns_later_total options lineIndex n items :
  break options = None -> lineIndex <> 0%nat ->
  forall k, (k + List.length items = n)%nat -> items <> [] ->
            totalBreaks (itemRuns this options lineIndex n k items) = 1%Z.
Proof.
  intros Hb Hl. induction items as [|item rest IH]; intros k Hk Hne.
  - contradiction.
  - change (itemRuns this options lineIndex n k (item :: rest))
      with (TextRun (textRunOptions this options item lineIndex k n)
              :: itemRuns this options lineIndex n (S k) rest).
    change (totalBreaks (?r :: ?rs))
      with ((breakOf r ?? 0) + totalBreaks rs)%Z.
    assert (Hhead : breakOf (TextRun (textRunOptions this options item
                                        lineIndex k n))
                    = Some (computedBreak lineIndex k n))
      by (simpl; rewrite Hb; reflexivity).
    rewrite Hhead, (computedBreak_later _ _ _ Hl).
    cbv [nullish].
    destruct rest as [|item' rest'].
    + simpl in Hk. replace (S k =? n)%nat with true; [reflexivity|].
      symmetry. apply Nat.eqb_eq. lia.
    + replace (S k =? n)%nat with false.
      * rewrite (IH (S k)); [reflexivity| simpl in *; lia | discriminate].
      * symmetry. apply Nat.eqb_neq. simpl in *. lia.
Qed.

Lemma lineToRuns_later options line i j :
  i <> 0%nat -> j <> 0%nat ->
  lineToRuns this options line i = lineToRuns this options line j.
Proof.
  intros Hi Hj. destruct i as [|i]; [contradiction|].
  destruct j as [|j]; [contradiction|]. reflexivity.
Qed.

Lemma linesToRuns_later options lines :
  forall i j, i <> 0%nat -> j <> 0%nat ->
              forEachPush (lineToRuns this options) i lines
              = forEachPush (lineToRuns this options) j lines.
Proof.
  induction lines as [|line rest IH]; intros i j Hi Hj; simpl.
  - reflexivity.
  - rewrite (lineToRuns_later options line i j Hi Hj).
    rewrite (IH (S i) (S j)); [reflexivity|lia|lia].
Qed.

(** The texts of the runs do not depend on where the lines are counted
    from. *)
Lemma linesToRuns_texts options lines :
  forall i j,
    map textOf (forEachPush (lineToRuns this options) i lines)
    = map textOf (forEachPush (lineToRuns this options) j lines).
Proof.
  induction lines as [|line rest IH]; intros i j; simpl.
  - reflexivity.
  - rewrite !map_app. rewrite (IH (S i) (S j)). f_equal.
    unfold lineToRuns. generalize (List.length line), 0%nat.
    induction line as [|item items IHi]; intros n k; simpl.
    + reflexivity.
    + f_equal. apply IHi.
Qed.

Lemma split_nonempty s sep : split s sep <> [].
Proof.
  destruct s as [|c s]; simpl; [discriminate|].
  destruct (Ascii.eqb c sep); [discriminate|].
  destruct (split s sep); discriminate.
Qed.

Lemma split_app s1 sep s2 :
  split (s1 ++ String sep s2) sep = (split s1 sep ++ split s2 sep)%list.
Proof.
  induction s1 as [|c s1 IH]; simpl.
  - rewrite Ascii.eqb_refl. reflexivity.
  - destruct (Ascii.eqb c sep).
    + rewrite IH. reflexivity.
    + rewrite IH. pose proof (split_nonempty s1 sep) as Hne.
      destruct (split s1 sep) as [|piece pieces]; [contradiction|].
      reflexivity.
Qed.

Lemma parseText_app s1 s2 :
  parseText (s1 ++ String "010" s2) = (parseText s1 ++ parseText s2)%list.
Proof. unfold parseText. rewrite split_app, map_app. reflexivity. Qed.

Lemma parseText_nonempty s : parseText s <> [].
Proof.
  unfold parseText. pose proof (split_nonempty s "010") as Hne.
  destruct (split s "010"); [contradiction|discriminate].
Qed.

Lemma append_cons_eqb_empty s1 c s2 :
  String.eqb (s1 ++ String c s2) "" = false.
Proof. destruct s1; reflexivity. Qed.

Lemma textToRuns_lines options value :
  textToRuns this options value
  = if String.eqb value "" then []
    else forEachPush (lineToRuns this options) 0 (parseText value).
Proof. unfold textToRuns, linesToRuns. destruct (String.eqb value ""); reflexivity. Qed.

(** An empty line between two parts of a value leaves no trace. *)
Lemma textToRuns_blank_line options before after :
  textToRuns this options (before ++ newline ++ newline ++ after)
  = textToRuns this options (before ++ newline ++ after).
Proof.
  change (before ++ newline ++ newline ++ after)
    with (before ++ String "010" ("" ++ String "010" after)).
  change (before ++ newline ++ after) with (before ++ String "010" after).
  rewrite !textToRuns_lines, !append_cons_eqb_empty.
  rewrite (parseText_app before), (parseText_app ""), (parseText_app before).
  change (parseText "") with [@nil Part].
  rewrite !forEachPush_app. f_equal. simpl.
  apply linesToRuns_later.
  - pose proof (parseText_nonempty before). destruct (parseText before);
      [contradiction|simpl; lia].
  - pose proof (parseText_nonempty before). destruct (parseText before);
      [contradiction|simpl; lia].
Qed.

Lemma textToRuns_trailing_newline options value :
  textToRuns this options (value ++ newline) = textToRuns this options value.
Proof.
  change (value ++ newline) with (value ++ String "010" "").
  rewrite !textToRuns_lines.
  rewrite append_cons_eqb_empty, (parseText_app value "").
  change (parseText "") with [@nil Part].
  rewrite forEachPush_app. simpl. rewrite app_nil_r.
  destruct value as [|c value]; [reflexivity|]. reflexivity.
Qed.

Lemma textToRuns_leading_newline options value :
  map textOf (textToRuns this options (newline ++ value))
  = map textOf (textToRuns this options value).
Proof.
  change (newline ++ value) with ("" ++ String "010" value).
  rewrite !textToRuns_lines.
  rewrite append_cons_eqb_empty, (parseText_app "" value).
  change (parseText "") with [@nil Part]. simpl app. simpl forEachPush.
  destruct value as [|c value].
  - reflexivity.
  - change (String.eqb (String c value) "") with false. cbv iota.
    apply linesToRuns_texts.
Qed.

(** C6 (amended).  The runs of a value are the runs of its lines.  An
    explicit [break] is the break of every run.  Without one, the runs
    of the first line have no break, and those of a later line that is not
    empty carry one break between them: on the run itself when the line
    is a single item. *)
Theorem C6_breaks_by_line options :
  (forall value, value <> "" ->
     textToRuns this options value
     = forEachPush (lineToRuns this options) 0 (parseText value))
  /\ (forall b line lineIndex,
        break options = Some b ->
        Forall (fun run => breakOf run = Some b)
          (lineToRuns this options line lineIndex))
  /\ (break options = None ->
      (forall line,
         Forall (fun run => breakOf run = Some 0%Z)
           (lineToRuns this options line 0))
      /\ (forall line lineIndex,
            lineIndex <> 0%nat -> line <> [] ->
            totalBreaks (lineToRuns this options line lineIndex) = 1%Z)
      /\ (forall item lineIndex,
            lineIndex <> 0%nat ->
            map breakOf (lineToRuns this options [item] lineIndex)
            = [Some 1%Z])).
Proof.
  split; [|split].
  - intros value Hv. rewrite textToRuns_lines.
    rewrite (eqb_empty_false _ Hv). reflexivity.
  - intros b line lineIndex Hb. apply itemRuns_explicit. exact Hb.
  - intro Hb. split; [|split].
    + intro line. apply itemRuns_first_line. exact Hb.
    + intros line lineIndex Hl Hne.
      apply itemRuns_later_total; auto.
    + intros item lineIndex Hl. simpl. rewrite Hb.
      rewrite (computedBreak_later _ _ _ Hl). reflexivity.
Qed.

Lemma textToRuns_after_newline options value :
  textToRuns this options (newline ++ value)
  = forEachPush (lineToRuns this options) 1 (parseText value).
Proof.
  change (newline ++ value) with ("" ++ String "010" value).
  rewrite textToRuns_lines.
  rewrite append_cons_eqb_empty, (parseText_app "" value).
  reflexivity.
Qed.

Lemma totalBreaks_app runs1 runs2 :
  totalBreaks (runs1 ++ runs2)%list
  = (totalBreaks runs1 + totalBreaks runs2)%Z.
Proof.
  induction runs1 as [|run runs1 IH]; [reflexivity|].
  simpl. unfold totalBreaks in *. simpl. rewrite IH. lia.
Qed.

Lemma totalBreaks_none runs :
  Forall (fun run => breakOf run = Some 0%Z) runs -> totalBreaks runs = 0%Z.
Proof.
  induction 1 as [|run runs Hrun _ IH]; [reflexivity|].
  unfold totalBreaks in *. simpl. rewrite Hrun, IH. reflexivity.
Qed.

(** C8 (amended).  An empty line inside a resolved value or at its end
    leaves nothing in the output: the runs of a value with a blank line
    between two parts are those of the value without it, and a trailing
    newline adds nothing.  A leading newline adds no text either, but it
    makes every line of the value a later line: the first line, when it is
    not empty, then carries a break it would not have.  [a], blank line,
    [b] gives the two runs [a], without break, and [b], with one; newline,
    [a] gives the run [a] with one break. *)
Theorem C8_blank_lines_are_lost options :
  (forall before after,
     textToRuns this options (before ++ newline ++ newline ++ after)
     = textToRuns this options (before ++ newline ++ after))
  /\ (forall value,
        textToRuns this options (value ++ newline)
        = textToRuns this options value)
  /\ (forall value,
        map textOf (textToRuns this options (newline ++ value))
        = map textOf (textToRuns this options value))
  /\ (forall value,
        textToRuns this options (newline ++ value)
        = forEachPush (lineToRuns this options) 1 (parseText value))
  /\ (break options = None ->
      forall value line rest,
        parseText value = line :: rest -> line <> [] ->
        totalBreaks (textToRuns this options (newline ++ value))
        = (totalBreaks (textToRuns this options value) + 1)%Z)
  /\ map textOf
       (textToRuns this options ("a" ++ newline ++ newline ++ "b"))
     = [Some "a"; Some "b"]
  /\ (break options = None ->
      map breakOf
        (textToRuns this options ("a" ++ newline ++ newline ++ "b"))
      = [Some 0%Z; Some 1%Z]
      /\ map breakOf (textToRuns this options (newline ++ "a"))
         = [Some 1%Z]).
Proof.
  split; [|split; [|split; [|split; [|split; [|split]]]]].
  - apply textToRuns_blank_line.
  - apply textToRuns_trailing_newline.
  - apply textToRuns_leading_newline.
  - apply textToRuns_after_newline.
  - intros Hb value line rest Hlines Hne.
    rewrite textToRuns_after_newline, textToRuns_lines, Hlines.
    assert (Hvalue : String.eqb value "" = false).
    { destruct value; [|reflexivity].
      injection Hlines as Hline _. subst line. contradiction. }
    rewrite Hvalue. cbn [forEachPush]. rewrite !totalBreaks_app.
    rewrite (linesToRuns_later options rest 2 1) by lia.
    rewrite (totalBreaks_none (lineToRuns this options line 0))
      by (apply itemRuns_first_line; exact Hb).
    assert (Hlater : totalBreaks (lineToRuns this options line 1) = 1%Z)
      by (apply itemRuns_later_total; auto).
    rewrite Hlater. lia.
  - reflexivity.
  - intro Hb. split.
    + change (map breakOf
                (textToRuns this options
                   ("a" ++ newline ++ newline ++ "b")))
        with [Some (break options ?? 0%Z); Some (break options ?? 1%Z)].
      rewrite Hb. reflexivity.
    + change (map breakOf (textToRuns this options (newline ++ "a")))
        with [Some (break options ?? 1%Z)].
      rewrite Hb. reflexivity.
Qed.

Section Paragraphs.

Variable data : JValue.

(** A paragraph is kept exactly when it has runs. *)
Lemma renderContentItem_paragraph options children :
  renderContentItem this data (ParagraphType options children)
  = (runs <- paragraphChildren this data children ;;
     match runs with
     | [] => Ok []
     | _ :: _ => Ok [Paragraph (Some options) runs]
     end).
Proof.
  simpl. destruct (paragraphChildren this data children) as [[|run runs]|e];
    reflexivity.
Qed.

(** C7.  A paragraph whose runs come to nothing adds no node, wherever it
    stands among the children: so does a paragraph whose only run resolves
    to the empty string.  A paragraph with runs adds one node, and an
    [emptyParagraph] item always adds the one blank paragraph. *)
Theorem C7_empty_paragraph_suppression :
  (forall options children before after,
     paragraphChildren this data children = Ok [] ->
     renderChildren this
       (before ++ ParagraphType options children :: after)%list data
     = renderChildren this (before ++ after)%list data)
  /\ (forall options run,
        resolveValue run data = Ok "" ->
        renderChildren this [ParagraphType options [TextType run]] data
        = Ok [])
  /\ (forall options children runs,
        paragraphChildren this data children = Ok runs -> runs <> [] ->
        renderChildren this [ParagraphType options children] data
        = Ok [Paragraph (Some options) runs])
  /\ (forall before after nodesBefore nodesAfter,
        renderChildren this before data = Ok nodesBefore ->
        renderChildren this after data = Ok nodesAfter ->
        renderChildren this (before ++ EmptyParagraphType :: after)%list
          data
        = Ok (nodesBefore ++ blankParagraph :: nodesAfter)%list)
  /\ renderChildren this [EmptyParagraphType] data = Ok [blankParagraph].
Proof.
  unfold renderChildren. split; [|split; [|split; [|split]]].
  - intros options children before after Hruns.
    rewrite !forEachResult_app.
    change (forEachResult (renderContentItem this data)
              (ParagraphType options children :: after))
      with (pushed <- renderContentItem this data
                        (ParagraphType options children) ;;
            more <- forEachResult (renderContentItem this data) after ;;
            Ok (pushed ++ more)%list).
    rewrite renderContentItem_paragraph, Hruns. simpl.
    destruct (forEachResult (renderContentItem this data) before);
      simpl; [|reflexivity].
    destruct (forEachResult (renderContentItem this data) after);
      reflexivity.
  - intros options run Hvalue.
    change (forEachResult (renderContentItem this data)
              [ParagraphType options [TextType run]])
      with (pushed <- renderContentItem this data
                        (ParagraphType options [TextType run]) ;;
            Ok (pushed ++ [])%list).
    rewrite renderContentItem_paragraph.
    unfold paragraphChildren. simpl. rewrite Hvalue. reflexivity.
  - intros options children runs Hruns Hne.
    change (forEachResult (renderContentItem this data)
              [ParagraphType options children])
      with (pushed <- renderContentItem this data
                        (ParagraphType options children) ;;
            Ok (pushed ++ [])%list).
    rewrite renderContentItem_paragraph, Hruns.
    destruct runs; [contradiction|reflexivity].
  - intros before after nodesBefore nodesAfter Hb Ha.
    rewrite forEachResult_app, Hb. simpl. rewrite Ha. reflexivity.
  - reflexivity.
Qed.

End Paragraphs.

End BinaryRenderer.

(** C6 as the specification words it fails: on the first line the second
    item has no break, and on a later line the first of two items has
    none. *)
Lemma C6_counterexample :
  ~ breaksAsStated newBuilder (textRun None None None) "a<b>x</b>"
  /\ ~ breaksAsStated newBuilder (textRun None None None)
        ("l" ++ newline ++ "a<b>x</b>").
Proof.
  split; intro H; specialize (H eq_refl); vm_compute in H; discriminate.
Qed.

Lemma C6_witness :
  Forall (fun run => breakOf run = Some 2%Z)
    (lineToRuns newBuilder
       (setField {| text := None; field := None; htmlConfig := None;
                    font := None; size := None; color := None;
                    bold := None; italics := None; underline := None;
                    strike := None; subScript := None;
                    superScript := None; break := Some 2%Z |} None)
       (parseLine "a<b>x</b>") 1)
  /\ totalBreaks (lineToRuns newBuilder (textRun None None None)
                    (parseLine "a<b>x</b>") 1) = 1%Z.
Proof.
  split.
  - apply (proj1 (proj2 (C6_breaks_by_line newBuilder _))). reflexivity.
  - apply (proj1 (proj2 (proj2 (proj2
             (C6_breaks_by_line newBuilder (textRun None None None))) eq_refl))).
    + discriminate.
    + vm_compute. discriminate.
Defined.


Lemma C7_witness :
  renderChildren newBuilder
    [EmptyParagraphType;
     ParagraphType {| alignment := None; spacing := None |}
       [TextType (textRun (Some "default") (Some "note") None)];
     EmptyParagraphType]
    (JObj [("note", JStr "")])
  = renderChildren newBuilder [EmptyParagraphType; EmptyParagraphType]
      (JObj [("note", JStr "")]).
Proof.
  apply (proj1 (C7_empty_paragraph_suppression newBuilder
                  (JObj [("note", JStr "")])) _ _ [EmptyParagraphType]).
  reflexivity.
Defined.

Lemma C8_witness :
  map breakOf
    (textToRuns newBuilder (textRun None None None)
       ("a" ++ newline ++ newline ++ "b"))
  = [Some 0%Z; Some 1%Z]
  /\ totalBreaks (textToRuns newBuilder (textRun None None None)
                    (newline ++ "a<b>x</b>" ++ newline ++ "c"))
     = (totalBreaks (textToRuns newBuilder (textRun None None None)
                       ("a<b>x</b>" ++ newline ++ "c")) + 1)%Z.
Proof.
  destruct (C8_blank_lines_are_lost newBuilder (textRun None None None))
    as [_ [_ [_ [_ [Htotal [_ Hbreaks]]]]]].
  split.
  - apply (proj1 (Hbreaks eq_refl)).
  - apply (Htotal eq_refl ("a<b>x</b>" ++ newline ++ "c")
             (parseLine "a<b>x</b>") [parseLine "c"]).
    + reflexivity.
    + vm_compute. discriminate.
Defined.

(** C8 as it is worded fails at the head of a value: the empty line before
    [a] gives [a] a break. *)
Lemma C8_counterexample :
  ~ leadingNewlineIsLost newBuilder (textRun None None None) "a"
  /\ map breakOf
       (textToRuns newBuilder (textRun None None None) (newline ++ "a"))
     = [Some 1%Z]
  /\ map breakOf (textToRuns newBuilder (textRun None None None) "a")
     = [Some 0%Z].
Proof.
  split; [|split; reflexivity].
  intro H. vm_compute in H. discriminate.
Qed.

(** ** Style injection *)

Section StyleInjection.

Variable renderChildrenHtml :
  DocxBuilder -> IChildren -> JValue -> result string.

Lemma find_none_filter {A : Type} (p : A -> bool) l :
  find p l = None <-> filter p l = [].
Proof.
  induction l as [|x l IH]; simpl; [tauto|].
  destruct (p x); [split; discriminate|exact IH].
Qed.

Lemma getElementById_none_withId id document :
  getElementById document id = None <-> withId id document = [].
Proof. apply find_none_filter. Qed.

Lemma find_app_none {A : Type} (p : A -> bool) l1 l2 :
  find p (l1 ++ l2)%list = None -> find p l1 = None /\ find p l2 = None.
Proof.
  induction l1 as [|x l1 IH]; simpl; [tauto|].
  destruct (p x); [discriminate|exact IH].
Qed.

Lemma find_app_middle {A : Type} (p : A -> bool) l1 x l2 :
  find p l1 = None -> p x = true -> find p (l1 ++ x :: l2)%list = Some x.
Proof.
  induction l1 as [|y l1 IH]; simpl; intros Hn Hx.
  - rewrite Hx. reflexivity.
  - destruct (p y); [discriminate|]. apply IH; assumption.
Qed.

(** What one injection does: nothing when the id is taken, one appended
    style element otherwise; the id is taken afterwards. *)
Lemma injectStyle_cases id document :
  (exists found, getElementById document id = Some found
                 /\ injectStyle id document = (found, document))
  \/ (getElementById document id = None
      /\ injectStyle id document
         = (styleElement id, appendToHead document (styleElement id))).
Proof.
  unfold injectStyle. destruct (getElementById document id) as [found|].
  - left. exists found. split; reflexivity.
  - right. split; reflexivity.
Qed.

Lemma getElementById_appended id document :
  getElementById document id = None ->
  getElementById (appendToHead document (styleElement id)) id
  = Some (styleElement id).
Proof.
  unfold getElementById. intro Hn. simpl.
  destruct (find_app_none _ _ _ Hn) as [Hh Hb].
  rewrite <- app_assoc. simpl. apply find_app_middle.
  - exact Hh.
  - simpl. apply String.eqb_refl.
Qed.

Lemma injectStyle_twice id document :
  injectStyle id (snd (injectStyle id document)) = injectStyle id document.
Proof.
  destruct (injectStyle_cases id document) as [[found [Hg Hi]]|[Hg Hi]];
    rewrite Hi; simpl.
  - exact Hi.
  - unfold injectStyle at 1.
    rewrite (getElementById_appended id document Hg). reflexivity.
Qed.

Lemma withId_appended id document :
  withId id (appendToHead document (styleElement id))
  = (filter (fun e => String.eqb (elementId e) id) (headElements document)
     ++ styleElement id
     :: filter (fun e => String.eqb (elementId e) id)
          (bodyElements document))%list.
Proof.
  unfold withId. simpl. rewrite <- app_assoc, !filter_app. simpl.
  rewrite String.eqb_refl. reflexivity.
Qed.

(** One call of [renderHtml] leaves the document as it is or injects. *)
Lemma renderHtml_document this data document :
  snd (renderHtml renderChildrenHtml this data document) = document
  \/ snd (renderHtml renderChildrenHtml this data document)
     = snd (injectStyle styleId document).
Proof.
  unfold renderHtml.
  destruct (renderSectionsHtml renderChildrenHtml this data 0
              (sections this)) as [html|e].
  - right. fold styleId. destruct (injectStyle styleId document).
    reflexivity.
  - left. reflexivity.
Qed.

Lemma renderHtmlCalls_settled calls :
  forall document,
    getElementById document styleId <> None ->
    renderHtmlCalls renderChildrenHtml calls document = document.
Proof.
  induction calls as [|[this data] rest IH]; intros document Hg; simpl.
  - reflexivity.
  - assert (Hsame : snd (renderHtml renderChildrenHtml this data document)
                    = document).
    { destruct (renderHtml_document this data document) as [H|H];
        [exact H|]. rewrite H.
      destruct (injectStyle_cases styleId document)
        as [[found [_ Hi]]|[Hn _]].
      - rewrite Hi. reflexivity.
      - contradiction. }
    rewrite Hsame. apply IH. exact Hg.
Qed.

Lemma renderHtmlCalls_cases calls :
  forall document,
    renderHtmlCalls renderChildrenHtml calls document = document
    \/ (getElementById document styleId = None
        /\ renderHtmlCalls renderChildrenHtml calls document
           = appendToHead document (styleElement styleId)).
Proof.
  induction calls as [|[this data] rest IH]; intro document; simpl.
  - left. reflexivity.
  - destruct (renderHtml_document this data document) as [H|H]; rewrite H.
    + apply IH.
    + destruct (injectStyle_cases styleId document)
        as [[found [_ Hi]]|[Hn Hi]]; rewrite Hi; simpl.
      * apply IH.
      * right. split; [exact Hn|].
        apply renderHtmlCalls_settled.
        rewrite (getElementById_appended _ _ Hn). discriminate.
Qed.

(** C9.  Whatever instances call [renderHtml], with whatever data and
    however often, the document ends as it was or with the one style
    element appended to its head, and never holds more elements with the
    style id than one, or than it held before; once an element has that
    id no call changes the document; and a second [injectStyle] returns
    the element of the first and leaves its document in place. *)
Theorem C9_style_injected_once :
  (forall calls document,
     let document' := renderHtmlCalls renderChildrenHtml calls document in
     (document' = document
      \/ document' = appendToHead document (styleElement styleId))
     /\ (List.length (withId styleId document')
         <= Nat.max 1 (List.length (withId styleId document)))%nat
     /\ (getElementById document' styleId <> None ->
         forall more,
           renderHtmlCalls renderChildrenHtml more document' = document'))
  /\ (forall id document,
        injectStyle id (snd (injectStyle id document))
        = injectStyle id document).
Proof.
  split; [|apply injectStyle_twice].
  intros calls document document'. subst document'.
  destruct (renderHtmlCalls_cases calls document) as [H|[Hn H]];
    rewrite H.
  - split; [left; reflexivity|]. split; [apply Nat.le_max_r|].
    intros Hg more. apply renderHtmlCalls_settled. exact Hg.
  - split; [right; reflexivity|]. split.
    + rewrite withId_appended.
      apply getElementById_none_withId in Hn. unfold withId in Hn.
      rewrite filter_app in Hn. apply app_eq_nil in Hn.
      destruct Hn as [Hh Hb]. rewrite Hh, Hb.
      cbn [app List.length]. apply Nat.le_max_l.
    + intros Hg more. apply renderHtmlCalls_settled. exact Hg.
Qed.

End StyleInjection.

Lemma C9_witness :
  renderHtmlCalls (fun _ _ _ => Ok "")
    [(newBuilder, JUndefined)]
    (renderHtmlCalls (fun _ _ _ => Ok "")
       [(newBuilder, JUndefined); (fst (construct 1), JNull)]
       {| headElements := []; bodyElements := [] |})
  = {| headElements := [styleElement styleId]; bodyElements := [] |}.
Proof.
  rewrite (proj2 (proj2 (proj1 (C9_style_injected_once (fun _ _ _ => Ok ""))
                           [(newBuilder, JUndefined);
                            (fst (construct 1), JNull)]
                           {| headElements := []; bodyElements := [] |}))).
  - reflexivity.
  - discriminate.
Defined.

(** ** Inline markup *)

Section InlineMarkup.

(** *** Strings by offset *)

Lemma length_append s1 s2 :
  String.length (s1 ++ s2) = String.length s1 + String.length s2.
Proof. induction s1 as [|c s1 IH]; simpl; [reflexivity|]. rewrite IH. reflexivity. Qed.

Lemma drop_0 s : drop 0 s = s.
Proof. reflexivity. Qed.


Lemma drop_length n : forall s, String.length (drop n s) = String.length s - n.
Proof.
  induction n as [|n IH]; intro s; simpl.
  - lia.
  - destruct s as [|c s]; simpl; [reflexivity|]. apply IH.
Qed.


Lemma drop_cons n : forall s c rest,
  drop n s = String c rest ->
  drop (S n) s = rest /\ n + S (String.length rest) = String.length s.
Proof.
  induction n as [|n IH]; intros s c rest Hd.
  - rewrite ?drop_0 in Hd. subst s. simpl. split; [reflexivity|lia].
  - destruct s as [|c' s]; simpl in Hd; [discriminate|].
    destruct (IH s c rest Hd) as [H1 H2]. simpl. split; [exact H1|lia].
Qed.

Lemma substring_drop n : forall m s, substring n m s = substring 0 m (drop n s).
Proof.
  induction n as [|n IH]; intros m s.
  - rewrite ?drop_0. reflexivity.
  - destruct s as [|c s]; simpl; [destruct m; reflexivity|]. apply IH.
Qed.


Lemma take_whole n : forall s, String.length s <= n -> substring 0 n s = s.
Proof.
  induction n as [|n IH]; intros s Hn.
  - destruct s; simpl in *; [reflexivity|lia].
  - destruct s as [|c s]; simpl in *; [reflexivity|]. rewrite IH; [reflexivity|lia].
Qed.


Lemma slice_to_end line a :
  slice line a (String.length line) = drop a line.
Proof.
  unfold slice. rewrite substring_drop. apply take_whole.
  rewrite drop_length. lia.
Qed.

Lemma take_length n : forall s,
  String.length (substring 0 n s) = Nat.min n (String.length s).
Proof.
  induction n as [|n IH]; intro s.
  - destruct s; reflexivity.
  - destruct s as [|c s]; simpl; [reflexivity|]. rewrite IH. reflexivity.
Qed.

Lemma prefix_length p s :
  prefix p s = true -> String.length p <= String.length s.
Proof.
  intro Hp. apply prefix_correct in Hp.
  pose proof (take_length (String.length p) s) as Hl.
  rewrite Hp in Hl. lia.
Qed.

Lemma take_add a : forall b s,
  substring 0 (a + b) s = substring 0 a s ++ substring 0 b (drop a s).
Proof.
  induction a as [|a IH]; intros b s.
  - rewrite ?drop_0. simpl. destruct s; reflexivity.
  - destruct s as [|c s]; simpl.
    + destruct b; reflexivity.
    + rewrite IH. reflexivity.
Qed.

(** *** The matcher *)

Lemma lazyCapture_unfold close s :
  lazyCapture close s
  = if prefix close s then Some 0
    else match s with
         | EmptyString => None
         | String c rest =>
             if lineTerminator c then None
             else option_map S (lazyCapture close rest)
         end.
Proof. destruct s; reflexivity. Qed.

(** A capture of [n] characters is followed by the closing tag. *)
Lemma lazyCapture_spec close : forall s n,
  lazyCapture close s = Some n ->
  substring 0 (n + String.length close) s = substring 0 n s ++ close
  /\ n + String.length close <= String.length s.
Proof.
  induction s as [|c rest IH]; intros n Hn; rewrite lazyCapture_unfold in Hn;
    destruct (prefix close _) eqn:Hp.
  - injection Hn as <-. split.
    + apply prefix_correct in Hp. exact Hp.
    + apply prefix_length in Hp. exact Hp.
  - discriminate.
  - injection Hn as <-. split.
    + apply prefix_correct in Hp. cbn [plus]. rewrite Hp. reflexivity.
    + apply prefix_length in Hp. exact Hp.
  - destruct (lineTerminator c); [discriminate|].
    destruct (lazyCapture close rest) as [n'|] eqn:Hrest; [|discriminate].
    injection Hn as <-. destruct (IH n' eq_refl) as [H1 H2]. split.
    + cbn [plus substring]. rewrite H1. reflexivity.
    + simpl. lia.
Qed.

(** A match at the head of [s] is the opening tag, the capture and the
    closing tag. *)
Lemma matchHere_spec tag s captured len :
  matchHere tag s = Some (captured, len) ->
  substring 0 len s = openTag tag ++ captured ++ closeTag tag
  /\ 0 < len <= String.length s.
Proof.
  unfold matchHere. intro Hm.
  destruct (prefix (openTag tag) s) eqn:Hp; [|discriminate].
  destruct (lazyCapture (closeTag tag)
              (drop (String.length (openTag tag)) s)) as [n|] eqn:Hc;
    [|discriminate].
  injection Hm as <- <-.
  destruct (lazyCapture_spec _ _ _ Hc) as [H1 H2].
  pose proof (prefix_length _ _ Hp) as Hlen.
  apply prefix_correct in Hp. rewrite drop_length in H2.
  split.
  - change (substring 0
              (String.length (openTag tag) + n
               + String.length (closeTag tag)) s
            = openTag tag
              ++ substring (String.length (openTag tag)) n s
              ++ closeTag tag).
    rewrite <- Nat.add_assoc, take_add, Hp, H1.
    rewrite (substring_drop (String.length (openTag tag)) n s).
    reflexivity.
  - change (0 < String.length (openTag tag) + n
                + String.length (closeTag tag) <= String.length s).
    assert (0 < String.length (openTag tag)) by (simpl; lia).
    lia.
Qed.

Lemma chain_weaken matches : forall lo lo',
  lo <= lo' -> chain lo' matches -> chain lo matches.
Proof.
  destruct matches as [|m rest]; intros lo lo' Hl Hc; simpl in *;
    [exact I|]. destruct Hc as [H1 H2]. split; [lia|exact H2].
Qed.

(** The matches of one tag span their tags in the line, carry the tag,
    and follow one another. *)
Lemma matchAllFrom_spec tag line : forall s pos skip,
  drop pos line = s ->
  Forall (fun m => spansTag line m /\ matchType m = tag)
    (matchAllFrom tag pos skip s)
  /\ chain (pos + skip) (matchAllFrom tag pos skip s).
Proof.
  induction s as [|c rest IH]; intros pos skip Hd.
  - simpl. split; constructor.
  - destruct (drop_cons _ _ _ _ Hd) as [Hrest Hlen].
    simpl. destruct skip as [|skip].
    + destruct (matchHere tag (String c rest)) as [[captured len]|] eqn:Hm.
      * destruct (matchHere_spec _ _ _ _ Hm) as [Hsub [Hpos Hle]].
        destruct (IH (S pos) (len - 1) Hrest) as [Hall Hchain].
        split.
        -- constructor; [|exact Hall]. split; [|reflexivity].
           unfold spansTag, slice. simpl in *.
           split; [lia|]. split; [lia|].
           replace (pos + len - pos) with len by lia.
           rewrite substring_drop, Hd. exact Hsub.
        -- simpl. split; [lia|]. split; [lia|].
           replace (pos + len) with (S pos + (len - 1)) by lia.
           exact Hchain.
      * destruct (IH (S pos) 0 Hrest) as [Hall Hchain].
        split; [exact Hall|].
        apply (chain_weaken _ _ (S pos + 0)); [lia|exact Hchain].
    + destruct (IH (S pos) skip Hrest) as [Hall Hchain].
      split; [exact Hall|].
      replace (pos + S skip) with (S pos + skip) by lia. exact Hchain.
Qed.

Lemma matchAll_spec tag line :
  Forall (fun m => spansTag line m /\ matchType m = tag) (matchAll tag line)
  /\ chain 0 (matchAll tag line).
Proof. apply (matchAllFrom_spec tag line line 0 0). reflexivity. Qed.

(** *** Sorting matches that do not overlap *)

Lemma disjoint_sym m1 m2 : disjoint m1 m2 -> disjoint m2 m1.
Proof. unfold disjoint. tauto. Qed.

Lemma insertMatch_Forall (P : Match -> Prop) m sorted :
  P m -> Forall P sorted -> Forall P (insertMatch m sorted).
Proof.
  intros Hm Hs. induction Hs as [|m' rest Hm' Hrest IH]; simpl.
  - constructor; [exact Hm|constructor].
  - destruct (matchStart m <=? matchStart m')%nat.
    + constructor; [exact Hm|]. constructor; assumption.
    + constructor; assumption.
Qed.

Lemma sortMatches_Forall (P : Match -> Prop) matches :
  Forall P matches -> Forall P (sortMatches matches).
Proof.
  induction 1 as [|m rest Hm Hrest IH]; simpl.
  - constructor.
  - apply insertMatch_Forall; assumption.
Qed.









(** *** The parts cover the line *)


Lemma append_empty_r s : s ++ "" = s.
Proof. induction s as [|c s IH]; simpl; [reflexivity|]. rewrite IH. reflexivity. Qed.

Lemma append_assoc (a b c : string) : (a ++ b) ++ c = a ++ b ++ c.
Proof. induction a as [|x a IH]; simpl; [reflexivity|]. rewrite IH. reflexivity. Qed.







End InlineMarkup.


(** Where tags of different types overlap the parts do not write back the
    line. *)
Lemma overlapping_tags_do_not_cover :
  parseLine "<b><i>x</i></b>"
  = [ {| type := "b"; value := "<i>x</i>" |};
      {| type := "i"; value := "x" |};
      {| type := "text"; value := "</b>" |} ]
  /\ sourceOf (parseLine "<b><i>x</i></b>") <> "<b><i>x</i></b>".
Proof. split; [reflexivity|discriminate]. Qed.

(** ** The binary renderer on whole trees *)

Section WholeTrees.

Variable this : DocxBuilder.
Variable data : JValue.

(** Induction over content items through the rows and cells of tables. *)
Lemma IContent_nested_ind (P : IContent -> Prop) :
  (forall options children, P (ParagraphType options children)) ->
  P EmptyParagraphType ->
  (forall rows,
     Forall (fun row : ITableRowOwnOptions *
                       list (ITableCellOwnOptions * list IContent) =>
               Forall (fun cell : ITableCellOwnOptions * list IContent =>
                         Forall P (snd cell))
                 (snd row))
       rows ->
     P (TableType rows)) ->
  forall contentItem, P contentItem.
Proof.
  intros Hparagraph Hempty Htable.
  refine (fix go (contentItem : IContent) : P contentItem :=
            match contentItem with
            | ParagraphType options children => Hparagraph options children
            | EmptyParagraphType => Hempty
            | TableType rows => Htable rows _
            end).
  induction rows as [|[rowOwn cells] rows' IHrows]; constructor;
    [|exact IHrows].
  simpl. induction cells as [|[cellOwn children] cells' IHcells];
    constructor; [|exact IHcells].
  simpl. induction children as [|child children' IHchildren];
    constructor; [apply go|exact IHchildren].
Qed.

Lemma renderContentItem_at_most_one contentItem nodes :
  renderContentItem this data contentItem = Ok nodes ->
  List.length nodes <= 1.
Proof.
  destruct contentItem as [options children| |rows]; intro Hr.
  - rewrite renderContentItem_paragraph in Hr.
    destruct (paragraphChildren this data children) as [[|run runs]|e];
      simpl in Hr; try discriminate; injection Hr as <-; simpl; lia.
  - injection Hr as <-. simpl. lia.
  - simpl in Hr.
    match type of Hr with
    | bind ?m _ = _ => destruct m as [rendered|e]
    end; simpl in Hr; [|discriminate].
    injection Hr as <-. simpl. lia.
Qed.

(** The children are rendered one after the other, in their order, each to
    at most one node; the first raise is the raise of the whole. *)
Theorem renderChildren_keeps_order before after :
  renderChildren this (before ++ after)%list data
  = (nodesBefore <- renderChildren this before data ;;
     nodesAfter <- renderChildren this after data ;;
     Ok (nodesBefore ++ nodesAfter)%list)
  /\ (forall nodes,
        renderChildren this before data = Ok nodes ->
        List.length nodes <= List.length before).
Proof.
  split; [apply forEachResult_app|].
  unfold renderChildren.
  induction before as [|item rest IH]; intros nodes Hb; simpl in Hb.
  - injection Hb as <-. simpl. lia.
  - destruct (renderContentItem this data item) as [pushed|e] eqn:Hi;
      simpl in Hb; [|discriminate].
    destruct (forEachResult (renderContentItem this data) rest)
      as [more|e] eqn:Hm; simpl in Hb; [|discriminate].
    injection Hb as <-. rewrite length_app. simpl.
    pose proof (renderContentItem_at_most_one _ _ Hi).
    pose proof (IH more eq_refl). lia.
Qed.

Lemma textToRuns_no_image options value :
  imageRunsOf (textToRuns this options value) = [].
Proof.
  rewrite textToRuns_lines. destruct (String.eqb value ""); [reflexivity|].
  generalize (parseText value) as lines, 0 as i.
  induction lines as [|line lines IH]; intro i; simpl.
  - reflexivity.
  - unfold imageRunsOf in *. rewrite flat_map_app, IH, app_nil_r.
    unfold lineToRuns. generalize (List.length line), 0.
    induction line as [|item items IHi]; intros n k; simpl;
      [reflexivity|apply IHi].
Qed.

(** The image runs of a rendered paragraph are its image items, unchanged
    and in their order, whatever the text items resolve to. *)
Theorem paragraphChildren_passes_images children runs :
  paragraphChildren this data children = Ok runs ->
  imageRunsOf runs = imagesOf children.
Proof.
  unfold paragraphChildren. revert runs.
  induction children as [|item rest IH]; intros runs Hr; simpl in Hr.
  - injection Hr as <-. reflexivity.
  - destruct (renderParagraphItem this data item) as [pushed|e] eqn:Hi;
      simpl in Hr; [|discriminate].
    destruct (forEachResult (renderParagraphItem this data) rest)
      as [more|e]; simpl in Hr; [|discriminate].
    injection Hr as <-. unfold imageRunsOf, imagesOf in *.
    rewrite flat_map_app. cbn [flat_map]. rewrite (IH more eq_refl).
    f_equal. destruct item as [options|options]; simpl in Hi.
    + destruct (resolveValue options data) as [value|e]; simpl in Hi;
        [|discriminate].
      injection Hi as <-. apply textToRuns_no_image.
    + injection Hi as <-. reflexivity.
Qed.

End WholeTrees.

(** ** The copy the dotted walk is made over *)

Section JsonCopy.

Lemma jsonCopy_object properties :
  jsonCopy (JObj properties) = JObj (copyProperties properties).
Proof.
  reflexivity.
Qed.

Lemma truthy_copy v : truthy (jsonCopy v) = truthy v.
Proof. destruct v; reflexivity. Qed.

(** The copy of a value without own [toString] prints as the value. *)
Lemma String_copy v : printable v = true -> String_ (jsonCopy v) = String_ v.
Proof.
  induction v as [| |b|n|s|elements IH|properties IH]
    using JValue_nested_ind; intro Hp; try reflexivity.
  - change (jsonCopy (JArr elements))
      with (JArr (map (fun e => match e with
                                | JUndefined => JNull
                                | _ => jsonCopy e
                                end) elements)).
    rewrite !String_array. f_equal. cbn [printable] in Hp.
    induction IH as [|e rest He _ IHrest]; [reflexivity|].
    cbn [forallb] in Hp. apply andb_prop in Hp. destruct Hp as [Hpe Hprest].
    cbn [map mapResult]. rewrite (IHrest Hprest). f_equal.
    destruct e; try reflexivity; apply He; exact Hpe.
  - cbn [printable] in Hp. apply andb_prop in Hp. destruct Hp as [Hown _].
    apply negb_true_iff in Hown.
    change (jsonCopy (JObj properties))
      with (JObj (copyProperties properties)).
    cbn [String_]. rewrite (hasOwn_copy _ _ Hown), Hown.
    reflexivity.
Qed.

Lemma lookup_absent k properties :
  ~ In k (map fst properties) -> lookup k properties = JUndefined.
Proof.
  induction properties as [|[k' e] rest IH]; simpl; intro Hn;
    [reflexivity|].
  destruct (String.eqb_spec k k') as [->|Hk].
  - exfalso. apply Hn. left. reflexivity.
  - apply IH. intro Hin. apply Hn. right. exact Hin.
Qed.

Lemma copyProperties_keys k properties :
  In k (map fst (copyProperties properties)) -> In k (map fst properties).
Proof.
  induction properties as [|[k' e] rest IH]; simpl; [tauto|].
  destruct e; simpl; intro H;
    try (destruct H as [H|H]; [left; exact H|right; apply IH; exact H]).
  right. apply IH. exact H.
Qed.

(** Reading a key of the copy of an object gives the copy of what the
    object holds under it. *)
Lemma lookup_copy k properties :
  NoDup (map fst properties) ->
  lookup k (copyProperties properties) = jsonCopy (lookup k properties).
Proof.
  induction properties as [|[k' e] rest IH]; intro Hnd; [reflexivity|].
  simpl in Hnd. inversion Hnd as [|? ? Hnotin Hnd']; subst.
  assert (Hundef : lookup k (copyProperties rest)
                   = jsonCopy (if String.eqb k k' then JUndefined
                               else lookup k rest)).
  { destruct (String.eqb_spec k k') as [->|Hk]; [|apply IH; exact Hnd'].
    apply lookup_absent. intro Hin. apply Hnotin.
    apply copyProperties_keys. exact Hin. }
  assert (Hdef : (if String.eqb k k' then jsonCopy e
                  else lookup k (copyProperties rest))
                 = jsonCopy (if String.eqb k k' then e else lookup k rest)).
  { destruct (String.eqb k k'); [reflexivity|apply IH; exact Hnd']. }
  destruct e; first [exact Hundef|exact Hdef].
Qed.

Lemma uniqueKeys_lookup k properties :
  uniqueKeys (JObj properties) -> uniqueKeys (lookup k properties).
Proof.
  simpl. intros [_ Hall]. induction properties as [|[k' e] rest IH];
    [exact I|].
  destruct Hall as [He Hrest]. simpl.
  destruct (String.eqb k k'); [exact He|apply IH; exact Hrest].
Qed.

Lemma uniqueKeys_nth i : forall elements,
  uniqueKeys (JArr elements) -> uniqueKeys (nth i elements JUndefined).
Proof.
  induction i as [|i IH]; intros [|e rest] Hall; simpl in *;
    try exact I; destruct Hall as [He Hrest].
  - exact He.
  - apply IH. exact Hrest.
Qed.

Lemma nth_copy i : forall elements,
  let copied := nth i (map (fun e => match e with
                                     | JUndefined => JNull
                                     | _ => jsonCopy e
                                     end) elements) JUndefined in
  let original := nth i elements JUndefined in
  truthy copied = truthy original
  /\ (truthy original = true -> copied = jsonCopy original).
Proof.
  induction i as [|i IH]; intros [|e rest]; simpl;
    try (split; [reflexivity|discriminate]).
  - destruct e; simpl; split; try reflexivity; try discriminate.
  - apply IH.
Qed.

(** A property of the copy is as truthy as the property of the original,
    and is its copy when truthy. *)
Lemma getProp_copy v k x :
  uniqueKeys v -> getProp v k = Ok x ->
  exists x', getProp (jsonCopy v) k = Ok x'
             /\ truthy x' = truthy x
             /\ (truthy x = true -> x' = jsonCopy x)
             /\ uniqueKeys x.
Proof.
  intros Hu Hg. destruct v as [| |b|n|s|elements|properties];
    try discriminate.
  - injection Hg as <-. exists JUndefined.
    split; [reflexivity|]. split; [reflexivity|].
    split; [discriminate|exact I].
  - injection Hg as <-. exists JUndefined.
    split; [reflexivity|]. split; [reflexivity|].
    split; [discriminate|exact I].
  - assert (Hx : x = jsonCopy x /\ uniqueKeys x).
    { simpl in Hg. destruct (String.eqb k "length");
        [injection Hg as <-; split; [reflexivity|exact I]|].
      destruct (arrayIndex k) as [i|];
        [|injection Hg as <-; split; [reflexivity|exact I]].
      destruct (String.get i s); injection Hg as <-;
        split; try reflexivity; exact I. }
    destruct Hx as [Hcopy Hux]. exists x.
    split; [exact Hg|]. split; [reflexivity|].
    split; [intros _; exact Hcopy|exact Hux].
  - cbn [jsonCopy getProp] in *. rewrite length_map.
    destruct (String.eqb k "length").
    + injection Hg as <-. eexists.
      split; [reflexivity|]. split; [reflexivity|].
      split; [intros _; reflexivity|exact I].
    + destruct (arrayIndex k) as [i|].
      * injection Hg as <-. eexists. split; [reflexivity|].
        destruct (nth_copy i elements) as [Ht Hc].
        split; [exact Ht|]. split; [exact Hc|].
        apply uniqueKeys_nth. exact Hu.
      * injection Hg as <-. exists JUndefined.
        split; [reflexivity|]. split; [reflexivity|].
        split; [discriminate|exact I].
  - rewrite jsonCopy_object. cbn [getProp] in *. injection Hg as <-.
    eexists. split; [reflexivity|]. destruct Hu as [Hnd Hall].
    rewrite (lookup_copy k properties Hnd).
    split; [apply truthy_copy|]. split; [reflexivity|].
    apply uniqueKeys_lookup. split; assumption.
Qed.

(** The walk over the copy stops where the walk over the bag itself stops,
    and ends at the copy of where that one ends. *)
Lemma walkFieldParts_copy parts : forall v,
  truthy v = true -> uniqueKeys v ->
  exists final isBreak,
    walkFieldParts v parts = Ok (final, isBreak)
    /\ walkFieldParts (jsonCopy v) parts = Ok (jsonCopy final, isBreak).
Proof.
  induction parts as [|part rest IH]; intros v Hv Hu.
  - exists v, false. split; reflexivity.
  - destruct (truthy_getProp_returns v part Hv) as [next Hnext].
    destruct (getProp_copy v part next Hu Hnext)
      as [next' [Hnext' [Ht [Hc Hun]]]].
    cbn [walkFieldParts]. rewrite Hnext, Hnext'. cbn [bind]. rewrite Ht.
    destruct (truthy next) eqn:Hn; cbn [negb].
    + rewrite (Hc eq_refl). apply IH; assumption.
    + exists v, true. split; reflexivity.
Qed.

(** The copy changes nothing: for a bag whose objects bind no key twice
    and have no own member named [toString], the run's value is the one
    the same resolution gives when it walks the bag itself. *)
Theorem resolveValue_copy_is_neutral options data :
  uniqueKeys data -> printable data = true ->
  resolveValue options data = resolveValueInPlace options data.
Proof.
  intros Hu Hprint. unfold resolveValue, resolveValueInPlace. cbv zeta.
  destruct (fieldOf options) as [field|]; [|reflexivity].
  destruct (truthy data) eqn:Hd; [|reflexivity]. cbn [andb].
  destruct (negb (String.eqb field "")); [|reflexivity].
  destruct (getProp data field) as [direct|e]; [|reflexivity]. cbn [bind].
  destruct (negb (isUndefined direct)); [reflexivity|].
  destruct (includes field "."); [|reflexivity].
  rewrite (truthy_JSON_parse_stringify _ Hd). cbn [bind].
  destruct (walkFieldParts_copy (split field ".") data Hd Hu)
    as [final [isBreak [Horig Hcopy]]].
  rewrite Horig, Hcopy. cbn [bind].
  destruct isBreak; cbn [negb]; [reflexivity|].
  apply String_copy.
  apply (walkFieldParts_printable _ _ _ _ Hprint Hd Horig).
Qed.

End JsonCopy.

(** ** What the markup parser recognises *)

Section Recognition.

Lemma prefix_empty s : prefix "" s = true.
Proof. destruct s; reflexivity. Qed.

Lemma prefix_append p : forall s, prefix p (p ++ s) = true.
Proof.
  induction p as [|c p IH]; intro s; simpl.
  - apply prefix_empty.
  - destruct (ascii_dec c c) as [_|Hn]; [apply IH|contradiction].
Qed.

Lemma prefix_head_differs c p c' s :
  c <> c' -> prefix (String c p) (String c' s) = false.
Proof.
  intro Hc. simpl. destruct (ascii_dec c c'); [contradiction|reflexivity].
Qed.

Lemma includes_head c rest c' :
  includes (String c rest) c' = false -> c <> c' /\ includes rest c' = false.
Proof.
  simpl. intro H. apply orb_false_iff in H. destruct H as [H1 H2].
  split; [|exact H2]. intro Heq. subst. rewrite Ascii.eqb_refl in H1.
  discriminate.
Qed.

Lemma includes_append s1 s2 c :
  includes (s1 ++ s2) c = includes s1 c || includes s2 c.
Proof.
  induction s1 as [|c' s1 IH]; simpl; [reflexivity|].
  rewrite IH, orb_assoc. reflexivity.
Qed.

(** No tag opens at a character other than [<]. *)
Lemma matchHere_not_open tag c rest :
  c <> "<"%char -> matchHere tag (String c rest) = None.
Proof.
  intro Hc. unfold matchHere, openTag.
  change ("<" ++ tag ++ ">") with (String "<" (tag ++ ">")).
  rewrite prefix_head_differs; [reflexivity|].
  intro Heq. apply Hc. symmetry. exact Heq.
Qed.

(** A stretch without [<] holds no match. *)
Lemma matchAllFrom_plain tag pre : forall pos s,
  includes pre "<" = false ->
  matchAllFrom tag pos 0 (pre ++ s)
  = matchAllFrom tag (pos + String.length pre) 0 s.
Proof.
  induction pre as [|c pre IH]; intros pos s Hp.
  - simpl. rewrite Nat.add_0_r. reflexivity.
  - destruct (includes_head _ _ _ Hp) as [Hc Hrest].
    change (String c pre ++ s) with (String c (pre ++ s)).
    cbn [matchAllFrom]. rewrite (matchHere_not_open tag c _ Hc).
    rewrite (IH (S pos) s Hrest). f_equal. simpl. lia.
Qed.

Lemma matchAllFrom_plain_end tag pre pos :
  includes pre "<" = false -> matchAllFrom tag pos 0 pre = [].
Proof.
  intro Hp. rewrite <- (append_empty_r pre).
  rewrite (matchAllFrom_plain tag pre pos "" Hp). reflexivity.
Qed.

(** The characters of a match are passed over. *)
Lemma matchAllFrom_skip tag a : forall pos s,
  matchAllFrom tag pos (String.length a) (a ++ s)
  = matchAllFrom tag (pos + String.length a) 0 s.
Proof.
  induction a as [|c a IH]; intros pos s.
  - simpl. rewrite Nat.add_0_r. reflexivity.
  - change (String c a ++ s) with (String c (a ++ s)).
    cbn [matchAllFrom String.length]. rewrite IH. f_equal. lia.
Qed.

Lemma lazyCapture_found close' v after :
  includes v "<" = false -> hasLineTerminator v = false ->
  lazyCapture (String "<" close') (v ++ String "<" close' ++ after)
  = Some (String.length v).
Proof.
  induction v as [|c v IH]; intros Hv Ht; rewrite lazyCapture_unfold.
  - change ("" ++ String "<" close' ++ after)
      with (String "<" close' ++ after).
    rewrite prefix_append. reflexivity.
  - destruct (includes_head _ _ _ Hv) as [Hc Hrest].
    simpl in Ht. apply orb_false_iff in Ht. destruct Ht as [Ht1 Ht2].
    change (String c v ++ String "<" close' ++ after)
      with (String c (v ++ String "<" close' ++ after)).
    rewrite prefix_head_differs
      by (intro Heq; apply Hc; symmetry; exact Heq).
    rewrite Ht1, (IH Hrest Ht2). reflexivity.
Qed.

Lemma drop_append a s : drop (String.length a) (a ++ s) = s.
Proof. induction a as [|c a IH]; [reflexivity|exact IH]. Qed.

Lemma take_append a s : substring 0 (String.length a) (a ++ s) = a.
Proof.
  induction a as [|c a IH]; simpl.
  - destruct s; reflexivity.
  - rewrite IH. reflexivity.
Qed.

(** A tag around a capture without [<] and line terminators is matched
    where it opens. *)
Lemma matchHere_found tag v after :
  includes v "<" = false -> hasLineTerminator v = false ->
  matchHere tag (openTag tag ++ v ++ closeTag tag ++ after)
  = Some (v, String.length (openTag tag) + String.length v
             + String.length (closeTag tag)).
Proof.
  intros Hv Ht. unfold matchHere.
  rewrite prefix_append, drop_append.
  change (closeTag tag) with (String "<" ("/" ++ tag ++ ">")).
  rewrite (lazyCapture_found _ v after Hv Ht).
  rewrite substring_drop, drop_append, take_append. reflexivity.
Qed.

Lemma matchAllFrom_unfold tag pos s c rest :
  s = String c rest ->
  matchAllFrom tag pos 0 s
  = match matchHere tag s with
    | Some (captured, len) =>
        {| matchType := tag; matchValue := captured;
           matchStart := pos; matchEnd := pos + len |}
          :: matchAllFrom tag (S pos) (len - 1) rest
    | None => matchAllFrom tag (S pos) 0 rest
    end.
Proof. intros ->. reflexivity. Qed.

Lemma openTag_length tag :
  String.length (openTag tag) = S (String.length (tag ++ ">")).
Proof. reflexivity. Qed.

Lemma closeTag_length tag :
  String.length (closeTag tag) = S (S (String.length (tag ++ ">"))).
Proof. reflexivity. Qed.

(** The tag's own scan finds the tagged stretch and goes on after it. *)
Lemma matchAllFrom_own_tag tag v after pos :
  includes v "<" = false -> hasLineTerminator v = false ->
  matchAllFrom tag pos 0 (openTag tag ++ v ++ closeTag tag ++ after)
  = {| matchType := tag; matchValue := v; matchStart := pos;
       matchEnd := pos + (String.length (openTag tag) + String.length v
                          + String.length (closeTag tag)) |}
      :: matchAllFrom tag
           (pos + (String.length (openTag tag) + String.length v
                   + String.length (closeTag tag))) 0 after.
Proof.
  intros Hv Ht.
  rewrite (matchAllFrom_unfold tag pos
             (openTag tag ++ v ++ closeTag tag ++ after) "<"
             ((tag ++ ">") ++ v ++ closeTag tag ++ after) eq_refl).
  rewrite (matchHere_found tag v after Hv Ht). f_equal.
  rewrite <- (append_assoc v), <- (append_assoc (tag ++ ">")).
  replace (String.length (openTag tag) + String.length v
           + String.length (closeTag tag) - 1)
    with (String.length ((tag ++ ">") ++ v ++ closeTag tag))
    by (rewrite openTag_length, !length_append; lia).
  rewrite matchAllFrom_skip. f_equal.
  rewrite openTag_length, !length_append. lia.
Qed.

Lemma matchHere_no_prefix tag s :
  prefix (openTag tag) s = false -> matchHere tag s = None.
Proof. intro Hp. unfold matchHere. rewrite Hp. reflexivity. Qed.

(** The scan of another tag finds nothing in the tagged stretch. *)
Lemma matchAllFrom_other_tag tag' tag v after pos :
  (forall x, prefix (openTag tag') (openTag tag ++ x) = false) ->
  (forall y, prefix (openTag tag') (closeTag tag ++ y) = false) ->
  includes tag "<" = false -> includes v "<" = false ->
  matchAllFrom tag' pos 0 (openTag tag ++ v ++ closeTag tag ++ after)
  = matchAllFrom tag'
      (pos + (String.length (openTag tag) + String.length v
              + String.length (closeTag tag))) 0 after.
Proof.
  intros Hopen Hclose Htag Hv.
  rewrite (matchAllFrom_unfold tag' pos
             (openTag tag ++ v ++ closeTag tag ++ after) "<"
             ((tag ++ ">") ++ v ++ closeTag tag ++ after) eq_refl).
  rewrite (matchHere_no_prefix _ _ (Hopen _)).
  rewrite <- (append_assoc (tag ++ ">") v).
  rewrite matchAllFrom_plain
    by (rewrite !includes_append, Htag, Hv; reflexivity).
  rewrite (matchAllFrom_unfold tag' _ (closeTag tag ++ after) "<"
             (("/" ++ tag ++ ">") ++ after) eq_refl).
  rewrite (matchHere_no_prefix _ _ (Hclose _)).
  rewrite matchAllFrom_plain
    by (change ("/" ++ tag ++ ">") with (String "/" (tag ++ ">"));
        cbn [includes]; rewrite includes_append, Htag; reflexivity).
  f_equal. rewrite openTag_length, closeTag_length.
  change ("/" ++ tag ++ ">") with (String "/" (tag ++ ">")).
  cbn [String.length]. rewrite !length_append. lia.
Qed.

Lemma inlineTags_no_open tag : In tag inlineTags -> includes tag "<" = false.
Proof.
  unfold inlineTags. simpl. intro H.
  repeat (destruct H as [<-|H]; [reflexivity|]). contradiction.
Qed.

Lemma other_tag_prefixes tag' tag :
  In tag' inlineTags -> In tag inlineTags -> tag' <> tag ->
  (forall x, prefix (openTag tag') (openTag tag ++ x) = false)
  /\ (forall y, prefix (openTag tag') (closeTag tag ++ y) = false).
Proof.
  unfold inlineTags. simpl. intros H' H Hne.
  repeat (destruct H' as [<-|H']; [|]); try contradiction;
    repeat (destruct H as [<-|H]; [|]); try contradiction;
    try (exfalso; apply Hne; reflexivity);
    split; intro; reflexivity.
Qed.

(** What the scan of each tag finds in a line with one tagged stretch. *)
Lemma matchAll_single_tag tag' tag before v after :
  In tag' inlineTags -> In tag inlineTags ->
  includes before "<" = false -> includes v "<" = false ->
  includes after "<" = false -> hasLineTerminator v = false ->
  matchAll tag' (before ++ openTag tag ++ v ++ closeTag tag ++ after)
  = if String.eqb tag' tag
    then [{| matchType := tag; matchValue := v;
             matchStart := String.length before;
             matchEnd := String.length before
                         + (String.length (openTag tag) + String.length v
                            + String.length (closeTag tag)) |}]
    else [].
Proof.
  intros Ht' Ht Hb Hv Ha Hterm. unfold matchAll.
  rewrite (matchAllFrom_plain _ before 0 _ Hb). cbn [plus].
  destruct (String.eqb_spec tag' tag) as [->|Hne].
  - rewrite (matchAllFrom_own_tag tag v after _ Hv Hterm).
    rewrite (matchAllFrom_plain_end _ after _ Ha). reflexivity.
  - destruct (other_tag_prefixes tag' tag Ht' Ht Hne) as [Hopen Hclose].
    rewrite (matchAllFrom_other_tag tag' tag v after _ Hopen Hclose
               (inlineTags_no_open tag Ht) Hv).
    apply matchAllFrom_plain_end. exact Ha.
Qed.

Lemma flat_map_ext_in' {A B : Type} (f g : A -> list B) l :
  (forall a, In a l -> f a = g a) -> flat_map f l = flat_map g l.
Proof.
  induction l as [|a l IH]; intro Hfg; simpl; [reflexivity|].
  rewrite (Hfg a (or_introl eq_refl)), IH; [reflexivity|].
  intros b Hb. apply Hfg. right. exact Hb.
Qed.

Lemma pick_tag (m : Match) tag :
  In tag inlineTags ->
  flat_map (fun tag' => if String.eqb tag' tag then [m] else []) inlineTags
  = [m].
Proof.
  unfold inlineTags. simpl In. intro H.
  repeat (destruct H as [<-|H]; [reflexivity|]). contradiction.
Qed.

Lemma textPart_before before rest :
  (if (0 <? String.length before)%nat
   then [{| type := "text";
            value := slice (before ++ rest) 0 (String.length before) |}]
   else [])
  = textPart before.
Proof.
  unfold slice, textPart. rewrite Nat.sub_0_r, take_append.
  destruct before; reflexivity.
Qed.

Lemma textPart_after body after :
  (if (String.length body <? String.length (body ++ after))%nat
   then [{| type := "text";
            value := slice (body ++ after) (String.length body)
                       (String.length (body ++ after)) |}]
   else [])
  = textPart after.
Proof.
  rewrite slice_to_end, drop_append, length_append. unfold textPart.
  destruct after as [|c after].
  - simpl. rewrite Nat.add_0_r, Nat.ltb_irrefl. reflexivity.
  - replace (String.length body <? String.length body
                                   + String.length (String c after))%nat
      with true; [reflexivity|].
    symmetry. apply Nat.ltb_lt. simpl. lia.
Qed.

(** One tagged stretch in plain text is recognised: the parts of the line
    are the text before it, the tag with its value, and the text after
    it. *)
Theorem parseLine_recognises_a_tag tag before v after :
  In tag inlineTags ->
  includes before "<" = false -> includes v "<" = false ->
  includes after "<" = false -> hasLineTerminator v = false ->
  parseLine (before ++ openTag tag ++ v ++ closeTag tag ++ after)
  = (textPart before ++ {| type := tag; value := v |} :: textPart after)%list.
Proof.
  intros Ht Hb Hv Ha Hterm. unfold parseLine, collectMatches.
  rewrite (flat_map_ext_in' _
             (fun tag' =>
                if String.eqb tag' tag
                then [{| matchType := tag; matchValue := v;
                         matchStart := String.length before;
                         matchEnd := String.length before
                                     + (String.length (openTag tag)
                                        + String.length v
                                        + String.length (closeTag tag)) |}]
                else []))
    by (intros tag' Ht'; apply matchAll_single_tag; assumption).
  rewrite (pick_tag _ tag Ht). cbn [sortMatches insertMatch buildParts].
  cbn [matchStart matchEnd matchType matchValue].
  rewrite textPart_before. f_equal. f_equal.
  replace (String.length before
           + (String.length (openTag tag) + String.length v
              + String.length (closeTag tag)))
    with (String.length (before ++ openTag tag ++ v ++ closeTag tag))
    by (rewrite !length_append; lia).
  replace (before ++ openTag tag ++ v ++ closeTag tag ++ after)
    with ((before ++ openTag tag ++ v ++ closeTag tag) ++ after)
    by (rewrite !append_assoc; reflexivity).
  apply textPart_after.
Qed.

(** A line without [<] is one text part, or none when it is empty. *)
Theorem parseLine_plain_text line :
  includes line "<" = false -> parseLine line = textPart line.
Proof.
  intro Hl. unfold parseLine, collectMatches.
  rewrite (flat_map_ext_in' _ (fun _ => []))
    by (intros tag _; apply matchAllFrom_plain_end; exact Hl).
  replace (flat_map (fun _ : string => @nil Match) inlineTags)
    with (@nil Match) by reflexivity.
  cbn [sortMatches buildParts].
  rewrite <- (textPart_after "" line). reflexivity.
Qed.

Lemma slice_nonempty line a b :
  a < b -> b <= String.length line -> slice line a b <> "".
Proof.
  intros Hab Hb Hempty.
  assert (Hlen : String.length (slice line a b) = 0)
    by (rewrite Hempty; reflexivity).
  unfold slice in Hlen. rewrite substring_drop, take_length, drop_length in Hlen.
  lia.
Qed.

Lemma collectMatches_tags line :
  Forall (fun m => spansTag line m /\ In (matchType m) inlineTags)
    (collectMatches line).
Proof.
  unfold collectMatches. apply Forall_forall. intros m Hin.
  apply in_flat_map in Hin. destruct Hin as [tag [Htag Hin]].
  destruct (matchAll_spec tag line) as [Hall _].
  rewrite Forall_forall in Hall. destruct (Hall m Hin) as [Hs Ht].
  split; [exact Hs|]. rewrite Ht. exact Htag.
Qed.

Lemma buildParts_parts line : forall matches lastIndex,
  Forall (fun m => spansTag line m /\ In (matchType m) inlineTags) matches ->
  Forall (fun part => (type part = "text" /\ value part <> "")
                      \/ In (type part) inlineTags)
    (buildParts line matches lastIndex).
Proof.
  induction matches as [|m rest IH]; intros lastIndex Hall; cbn [buildParts].
  - destruct (Nat.ltb_spec lastIndex (String.length line)) as [Hlt|_];
      [|constructor].
    constructor; [|constructor]. left. split; [reflexivity|].
    apply slice_nonempty; [exact Hlt|lia].
  - inversion Hall as [|? ? [[Hend [Hm _]] Htype] Hall']; subst.
    apply Forall_app. split.
    + destruct (Nat.ltb_spec lastIndex (matchStart m)) as [Hlt|_];
        [|constructor].
      constructor; [|constructor]. left. split; [reflexivity|].
      apply slice_nonempty; [exact Hlt|lia].
    + constructor; [right; exact Htype|]. apply IH. exact Hall'.
Qed.

(** Whatever the line, its parts are text parts that are not empty and
    parts of the inline tags; and there is one list of parts per line of
    the input, one more than it has newlines. *)
Theorem parseText_parts input :
  Forall (Forall (fun part => (type part = "text" /\ value part <> "")
                              \/ In (type part) inlineTags))
    (parseText input)
  /\ List.length (parseText input) = S (countNewlines input).
Proof.
  split.
  - unfold parseText. apply Forall_forall. intros parts Hin.
    apply in_map_iff in Hin. destruct Hin as [line [<- _]].
    apply buildParts_parts. apply sortMatches_Forall.
    apply collectMatches_tags.
  - unfold parseText. rewrite length_map.
    induction input as [|c input IH]; [reflexivity|].
    cbn [split countNewlines].
    pose proof (split_nonempty input "010") as Hne.
    destruct (Ascii.eqb c "010").
    + cbn [List.length]. rewrite IH. reflexivity.
    + destruct (split input "010") as [|piece pieces]; [contradiction|].
      cbn [List.length] in *. rewrite IH. reflexivity.
Qed.

End Recognition.

(** ** Styles of the runs *)

Section Styles.

Variable this : DocxBuilder.

(** The style of a run comes from the tag of its part unless the run sets
    it: a run that sets a style keeps it on every part; a run that sets
    none has no style on a text part and exactly one on the part of an
    inline tag, the same for [strong] and [b], for [em] and [i], and for
    [del] and [s]. *)
Theorem textRunOptions_styles options content lineIndex itemIndex n :
  (forall tag flag,
     bold options = Some flag ->
     bold (textRunOptions this options {| type := tag; value := content |}
             lineIndex itemIndex n) = Some flag)
  /\ (stylesOf options = (None, None, None, None, None, None) ->
      styleCount (textRunOptions this options
                    {| type := "text"; value := content |}
                    lineIndex itemIndex n) = 0
      /\ (forall tag, In tag inlineTags ->
            styleCount (textRunOptions this options
                          {| type := tag; value := content |}
                          lineIndex itemIndex n) = 1)
      /\ textRunOptions this options {| type := "strong"; value := content |}
            lineIndex itemIndex n
         = textRunOptions this options {| type := "b"; value := content |}
             lineIndex itemIndex n
      /\ textRunOptions this options {| type := "em"; value := content |}
            lineIndex itemIndex n
         = textRunOptions this options {| type := "i"; value := content |}
             lineIndex itemIndex n
      /\ textRunOptions this options {| type := "del"; value := content |}
            lineIndex itemIndex n
         = textRunOptions this options {| type := "s"; value := content |}
             lineIndex itemIndex n).
Proof.
  split.
  - intros tag flag Hb. simpl. rewrite Hb. reflexivity.
  - unfold stylesOf. intro Hs. injection Hs as Hb Hi Hu Hst Hsub Hsup.
    unfold styleCount, textRunOptions. cbn [bold italics underline strike
      subScript superScript type].
    rewrite Hb, Hi, Hu, Hst, Hsub, Hsup.
    split; [reflexivity|]. split; [|repeat split; reflexivity].
    unfold inlineTags. simpl In. intros tag H.
    repeat (destruct H as [<-|H]; [reflexivity|]). contradiction.
Qed.

End Styles.

(** ** Builder ids *)

Section BuilderIds.

Lemma numberToString_injective n m :
  numberToString n = numberToString m -> n = m.
Proof.
  unfold numberToString. intro H. apply DecimalZ.to_int_inj.
  assert (Hnonnil : forall z, Z.to_int z <> Decimal.Pos Decimal.Nil
                              /\ Z.to_int z <> Decimal.Neg Decimal.Nil).
  { intro z. destruct z as [|p|p]; simpl; split; try discriminate;
      intro Hz; injection Hz as Hz;
      exact (DecimalPos.Unsigned.to_uint_nonnil _ Hz). }
  destruct (Hnonnil n) as [Hn1 Hn2]. destruct (Hnonnil m) as [Hm1 Hm2].
  pose proof (NilZero.isi _ Hn1 Hn2) as Hin.
  pose proof (NilZero.isi _ Hm1 Hm2) as Him.
  rewrite H in Hin. rewrite Hin in Him. injection Him as Him. exact Him.
Qed.

Lemma construct_id_injective n m :
  id (fst (construct n)) = id (fst (construct m)) -> n = m.
Proof.
  simpl. intro H. injection H as H. apply numberToString_injective.
  exact H.
Qed.

Lemma constructMany_step howMany count :
  constructMany (S howMany) count
  = (fst (construct count) :: fst (constructMany howMany (count + 1)),
     snd (constructMany howMany (count + 1))).
Proof.
  cbn [constructMany]. unfold construct at 1.
  destruct (constructMany howMany (count + 1)); reflexivity.
Qed.

Lemma constructMany_counts howMany : forall count,
  snd (constructMany howMany count) = (count + Z.of_nat howMany)%Z
  /\ Forall (fun builder =>
               exists c, (count <= c < count + Z.of_nat howMany)%Z
                         /\ id builder = id (fst (construct c)))
       (fst (constructMany howMany count)).
Proof.
  induction howMany as [|k IH]; intro count.
  - simpl. split; [lia|constructor].
  - rewrite constructMany_step. cbn [fst snd].
    destruct (IH (count + 1)%Z) as [Hc Hall]. split; [lia|].
    constructor.
    + exists count. split; [lia|reflexivity].
    + eapply Forall_impl; [|exact Hall].
      intros builder [c [Hrange Hid]]. exists c. split; [lia|exact Hid].
Qed.

(** Builders constructed one after the other have pairwise distinct ids,
    and the counter ends as many above as builders were made. *)
Theorem constructMany_ids_distinct howMany count :
  NoDup (map id (fst (constructMany howMany count)))
  /\ snd (constructMany howMany count) = (count + Z.of_nat howMany)%Z.
Proof.
  split; [|apply constructMany_counts].
  revert count. induction howMany as [|k IH]; intro count.
  - constructor.
  - rewrite constructMany_step. cbn [fst map]. constructor.
    + intro Hin. apply in_map_iff in Hin.
      destruct Hin as [builder [Hid Hin]].
      destruct (constructMany_counts k (count + 1)%Z) as [_ Hall].
      rewrite Forall_forall in Hall.
      destruct (Hall builder Hin) as [c [Hrange Hc]].
      rewrite Hc in Hid.
      apply (construct_id_injective c count) in Hid. lia.
    + apply IH.
Qed.

End BuilderIds.

(** ** The HTML renderer *)

Section HtmlRenderer.

Variable numberString : float -> string.
Variable this : DocxBuilder.

Lemma appendResults_app {A : Type} (f : A -> result string) l1 l2 :
  appendResults f (l1 ++ l2)%list
  = (a <- appendResults f l1 ;;
     b <- appendResults f l2 ;;
     Ok (a ++ b)).
Proof.
  induction l1 as [|x l1 IH]; simpl.
  - destruct (appendResults f l2); reflexivity.
  - destruct (f x) as [one|e]; simpl; [|reflexivity].
    rewrite IH.
    destruct (appendResults f l1) as [a|e]; simpl; [|reflexivity].
    destruct (appendResults f l2) as [b|e]; simpl; [|reflexivity].
    rewrite append_assoc. reflexivity.
Qed.

(** The markup of a sequence of children is the markup of its parts, one
    after the other; a part that raises makes the whole raise. *)
Theorem renderChildrenHtml_keeps_order before after data :
  renderChildrenHtml numberString this (before ++ after)%list data
  = (htmlBefore <- renderChildrenHtml numberString this before data ;;
     htmlAfter <- renderChildrenHtml numberString this after data ;;
     Ok (htmlBefore ++ htmlAfter)).
Proof. apply appendResults_app. Qed.

(** Floating images leave no markup: a paragraph's inline markup is that
    of its items without them. *)
Theorem floating_images_are_skipped data children :
  appendResults (renderInlineHtml numberString this data) children
  = appendResults (renderInlineHtml numberString this data)
      (filter (fun item => negb (floatingImage item)) children).
Proof.
  induction children as [|item rest IH]; [reflexivity|].
  cbn [filter]. destruct (floatingImage item) eqn:Hf; cbn [negb].
  - destruct item as [options|options]; [discriminate|].
    cbn [appendResults renderInlineHtml]. unfold renderImageHtml.
    simpl in Hf. destruct (floating options); [|discriminate].
    cbn [bind]. rewrite <- IH.
    destruct (appendResults _ rest); reflexivity.
  - cbn [appendResults]. rewrite IH. reflexivity.
Qed.

(** A [break] of minus one or less makes the HTML renderer raise on the
    run, before it reads the data: [repeat] refuses the count. *)
Theorem negative_break_raises_in_html data options count :
  break options = Some count -> (count <= -1)%Z ->
  renderTextHtml numberString this data options = Throw RangeError.
Proof.
  intros Hb Hneg.
  unfold renderTextHtml, breakTag. rewrite Hb.
  replace (truthy (JNum count)) with true
    by (symmetry; simpl; apply negb_true_iff, Z.eqb_neq; lia).
  unfold repeatString.
  replace (count <? 0)%Z with true
    by (symmetry; apply Z.ltb_lt; lia).
  reflexivity.
Qed.

Lemma renderParagraphHtml_unfold data options children :
  renderChildrenHtml numberString this [ParagraphType options children] data
  = (pHtml <- appendResults (renderInlineHtml numberString this data)
                children ;;
     Ok (("<p class=" ++ quoted "docx-builder-p")
         ++ " " ++ paragraphStyle numberString options ++ ">"
         ++ pHtml ++ "</p>")).
Proof.
  unfold renderChildrenHtml. cbn [appendResults renderContentItemHtml].
  destruct (appendResults (renderInlineHtml numberString this data)
              children) as [pHtml|e]; [|reflexivity].
  cbn [bind]. rewrite append_empty_r. reflexivity.
Qed.

(** The HTML renderer emits a paragraph element for every paragraph item,
    also for one the binary renderer drops. *)
Theorem html_keeps_empty_paragraphs data options children html :
  renderChildrenHtml numberString this [ParagraphType options children] data
  = Ok html ->
  prefix ("<p class=" ++ quoted "docx-builder-p") html = true
  /\ (children = [] ->
      renderChildren this [ParagraphType options children] data = Ok []).
Proof.
  intro Hr. split.
  - rewrite renderParagraphHtml_unfold in Hr.
    destruct (appendResults (renderInlineHtml numberString this data)
                children) as [pHtml|e]; [|discriminate].
    cbn [bind] in Hr.
    match type of Hr with
    | Ok ?markup = Ok html =>
        assert (Hh : markup = html) by congruence
    end.
    rewrite <- Hh. apply prefix_append.
  - intros ->. reflexivity.
Qed.

Lemma noHtmlConfig_table rows :
  noHtmlConfig (TableType rows) ->
  Forall (fun row : ITableRowOwnOptions *
                    list (ITableCellOwnOptions * list IContent) =>
            Forall (fun cell : ITableCellOwnOptions * list IContent =>
                      Forall noHtmlConfig (snd cell))
              (snd row))
    rows.
Proof.
  cbn [noHtmlConfig].
  induction rows as [|[rowOwn cells] rows IHrows]; intro H; constructor.
  - destruct H as [Hcells _]. cbn [snd]. clear IHrows.
    induction cells as [|[cellOwn children] cells IHcells]; constructor.
    + destruct Hcells as [Hchildren _]. cbn [snd]. clear IHcells.
      induction children as [|child children IHchildren]; constructor.
      * apply Hchildren.
      * apply IHchildren. apply Hchildren.
    + apply IHcells. apply Hcells.
  - apply IHrows. apply H.
Qed.

Lemma appendResults_ext_in {A : Type} (f g : A -> result string) l :
  Forall (fun x => f x = g x) l -> appendResults f l = appendResults g l.
Proof.
  induction 1 as [|x rest Hx _ IH]; simpl; [reflexivity|].
  rewrite Hx, IH. reflexivity.
Qed.

Lemma renderContentItemHtml_ignores_data data data' contentItem :
  noHtmlConfig contentItem ->
  renderContentItemHtml numberString this data contentItem
  = renderContentItemHtml numberString this data' contentItem.
Proof.
  induction contentItem as [options children| |rows IH]
    using IContent_nested_ind; intro Hno.
  - cbn [renderContentItemHtml]. cbn [noHtmlConfig] in Hno.
    rewrite (appendResults_ext_in
               (renderInlineHtml numberString this data)
               (renderInlineHtml numberString this data')); [reflexivity|].
    eapply Forall_impl; [|exact Hno].
    intros [textOptions|imageOptions] Hitem; [|reflexivity].
    cbn [renderInlineHtml]. unfold renderTextHtml.
    rewrite Hitem. reflexivity.
  - reflexivity.
  - cbn [renderContentItemHtml].
    apply noHtmlConfig_table in Hno.
    match goal with
    | |- bind (appendResults ?f rows) _ = bind (appendResults ?g rows) _ =>
        rewrite (appendResults_ext_in f g); [reflexivity|]
    end.
    apply Forall_forall. intros [rowOwn cells] Hin.
    rewrite Forall_forall in IH, Hno.
    specialize (IH _ Hin). specialize (Hno _ Hin). cbn [snd] in IH, Hno.
    match goal with
    | |- bind (appendResults ?f cells) _ = bind (appendResults ?g cells) _ =>
        rewrite (appendResults_ext_in f g); [reflexivity|]
    end.
    apply Forall_forall. intros [cellOwn cellChildren] Hin'.
    rewrite Forall_forall in IH, Hno.
    specialize (IH _ Hin'). specialize (Hno _ Hin'). cbn [snd] in IH, Hno.
    rewrite (appendResults_ext_in
               (renderContentItemHtml numberString this data)
               (renderContentItemHtml numberString this data'));
      [reflexivity|].
    apply Forall_forall. intros child Hchild.
    rewrite Forall_forall in IH, Hno.
    apply IH; [exact Hchild|]. apply Hno. exact Hchild.
Qed.

(** A template whose runs have no [htmlConfig] looks the same in HTML
    whatever the data: the HTML renderer substitutes through [htmlConfig]
    only. *)
Theorem html_without_htmlConfig_ignores_data data data' children :
  Forall noHtmlConfig children ->
  renderChildrenHtml numberString this children data
  = renderChildrenHtml numberString this children data'.
Proof.
  intro Hno. unfold renderChildrenHtml. apply appendResults_ext_in.
  eapply Forall_impl; [|exact Hno].
  intros item Hitem. apply renderContentItemHtml_ignores_data. exact Hitem.
Qed.

End HtmlRenderer.

(** ** [isChinese] *)

Section IsChinese.

Lemma matchPlus_atEnd class str :
  matchPlus class atEnd str = true
  <-> str <> [] /\ Forall (fun unit => inClass class unit = true) str.
Proof.
  induction str as [|unit rest IH]; cbn [matchPlus].
  - split; [discriminate|]. intros [Hne _]. contradiction.
  - rewrite andb_true_iff, orb_true_iff, IH. split.
    + intros [Hu [[_ Hrest]|Hend]]; (split; [discriminate|]);
        constructor; auto.
      destruct rest; [constructor|discriminate].
    + intros [_ Hall]. inversion Hall as [|? ? Hu Hrest]; subst.
      split; [exact Hu|]. destruct rest as [|unit' rest'].
      * right. reflexivity.
      * left. split; [discriminate|exact Hrest].
Qed.

(** [isChinese] holds exactly of the strings of one unit or more whose
    every unit lies in U+4E00-U+9FA5, U+3000-U+303F or U+FF00-U+FFEF: not
    of the empty string, not of a string that has such units beside a
    unit below U+3000 (a letter, a digit, a space), and of the
    concatenation of two strings it holds of. *)
Theorem isChinese_all_units :
  (forall str,
      isChinese str = true
      <-> str <> []
          /\ Forall (fun unit =>
                       0x4E00 <= unit <= 0x9FA5 \/ 0x3000 <= unit <= 0x303F
                       \/ 0xFF00 <= unit <= 0xFFEF)%N str)
  /\ isChinese [] = false
  /\ (forall str unit,
        In unit str -> (unit < 0x3000)%N -> isChinese str = false)
  /\ (forall str1 str2,
        isChinese str1 = true -> isChinese str2 = true ->
        isChinese (str1 ++ str2)%list = true).
Proof.
  assert (Hunit : forall unit,
             inClass chineseWithPunctRegex unit = true
             <-> (0x4E00 <= unit <= 0x9FA5 \/ 0x3000 <= unit <= 0x303F
                  \/ 0xFF00 <= unit <= 0xFFEF)%N).
  { intro unit. unfold inClass, chineseWithPunctRegex.
    cbn [existsb fst snd].
    rewrite !orb_true_iff, !andb_true_iff, !N.leb_le.
    intuition discriminate. }
  assert (Hiff : forall str,
             isChinese str = true
             <-> str <> []
                 /\ Forall (fun unit =>
                              0x4E00 <= unit <= 0x9FA5
                              \/ 0x3000 <= unit <= 0x303F
                              \/ 0xFF00 <= unit <= 0xFFEF)%N str).
  { intro str. unfold isChinese. rewrite matchPlus_atEnd.
    split; intros [Hne Hall]; (split; [exact Hne|]);
      (eapply Forall_impl; [|exact Hall]); intros unit Hu;
      apply Hunit; exact Hu. }
  split; [exact Hiff|]. split; [reflexivity|]. split.
  - intros str unit Hin Hlow.
    destruct (isChinese str) eqn:Hc; [|reflexivity].
    apply Hiff in Hc. destruct Hc as [_ Hall].
    rewrite Forall_forall in Hall. specialize (Hall unit Hin). lia.
  - intros str1 str2 H1 H2. apply Hiff in H1, H2. apply Hiff.
    destruct H1 as [Hne1 Hall1], H2 as [_ Hall2]. split.
    + destruct str1; [contradiction|discriminate].
    + apply Forall_app. split; assumption.
Qed.

End IsChinese.

(** ** Runs of plain text and where the break sits *)

Section PlainRuns.

Variable this : DocxBuilder.

Lemma split_without_separator s sep :
  includes s sep = false -> split s sep = [s].
Proof.
  induction s as [|c s IH]; intro Hs; [reflexivity|].
  destruct (includes_head _ _ _ Hs) as [Hc Hrest].
  cbn [split]. rewrite (IH Hrest).
  destruct (Ascii.eqb_spec c sep); [contradiction|reflexivity].
Qed.

(** A value of one line without [<] becomes one run: the run's options
    with the value as text, no style of a tag, and no break unless the
    run sets one. *)
Theorem textToRuns_plain_line options value :
  value <> "" -> includes value "010" = false ->
  includes value "<" = false ->
  textToRuns this options value
  = [TextRun (textRunOptions this options
                {| type := "text"; value := value |} 0 0 1)].
Proof.
  intros Hne Hnl Hlt. rewrite textToRuns_lines.
  rewrite (eqb_empty_false _ Hne). unfold parseText.
  rewrite (split_without_separator _ _ Hnl). cbn [map].
  rewrite (parseLine_plain_text _ Hlt). unfold textPart.
  rewrite (eqb_empty_false _ Hne). reflexivity.
Qed.

Lemma itemRuns_break_on_last options items last lineIndex n :
  break options = None -> lineIndex <> 0 ->
  forall k, k + List.length items + 1 = n ->
            map breakOf (itemRuns this options lineIndex n k
                           (items ++ [last])%list)
            = (map (fun _ => Some 0%Z) items ++ [Some 1%Z])%list.
Proof.
  intros Hb Hl. unfold itemRuns.
  induction items as [|item rest IH]; intros k Hn.
  - cbn [app forEachPush map breakOf textRunOptions break].
    rewrite Hb. cbn [nullish].
    rewrite (computedBreak_later _ _ _ Hl).
    replace (S k =? n)%nat with true;
      [reflexivity|symmetry; apply Nat.eqb_eq; simpl in Hn; lia].
  - cbn [app forEachPush map breakOf textRunOptions break List.length] in *.
    rewrite Hb. cbn [nullish].
    rewrite (computedBreak_later _ _ _ Hl).
    replace (S k =? n)%nat with false
      by (symmetry; apply Nat.eqb_neq; lia).
    f_equal. apply IH. lia.
Qed.

(** On a line after the first, a run without an explicit [break] has a
    break exactly on the last item of the line. *)
Theorem lineToRuns_break_on_last_item options items last lineIndex :
  break options = None -> lineIndex <> 0 ->
  map breakOf (lineToRuns this options (items ++ [last])%list lineIndex)
  = (map (fun _ => Some 0%Z) items ++ [Some 1%Z])%list.
Proof.
  intros Hb Hl.
  apply (itemRuns_break_on_last options items last lineIndex _ Hb Hl 0).
  rewrite length_app. simpl. lia.
Qed.

End PlainRuns.

(** ** What a call of [renderHtml] does to the document *)

Section RenderHtmlEffect.

Variable renderChildrenHtml :
  DocxBuilder -> IChildren -> JValue -> result string.

(** A call that raises leaves the document as it found it, without
    stylesheet; a call that returns gives the markup inside the builder's
    [div] and leaves an element with the style id in the document. *)
Theorem renderHtml_effect this data document :
  match renderHtml renderChildrenHtml this data document with
  | (Throw _, document') => document' = document
  | (Ok html, document') =>
      prefix ("<div id=" ++ dquote ++ id this ++ dquote ++ ">") html = true
      /\ getElementById document' styleId <> None
      /\ document' = snd (injectStyle styleId document)
  end.
Proof.
  unfold renderHtml.
  destruct (renderSectionsHtml renderChildrenHtml this data 0
              (sections this)) as [html|e]; [|reflexivity].
  fold styleId.
  assert (Hwrap : forall inner,
             "<div id=" ++ dquote ++ id this ++ dquote ++ ">" ++ inner
             = ("<div id=" ++ dquote ++ id this ++ dquote ++ ">") ++ inner)
    by (intro inner; rewrite !append_assoc; reflexivity).
  destruct (injectStyle_cases styleId document)
    as [[found [Hg Hi]]|[Hg Hi]]; rewrite Hi; cbn [snd].
  - split; [|split; [rewrite Hg; discriminate|reflexivity]].
    rewrite Hwrap. apply prefix_append.
  - split; [|split; [|reflexivity]].
    + rewrite Hwrap. apply prefix_append.
    + rewrite (getElementById_appended _ _ Hg). discriminate.
Qed.

End RenderHtmlEffect.

(** ** Instances of the theorems with hypotheses *)

Lemma resolveValue_copy_is_neutral_witness :
  resolveValue (textRun (Some "default") (Some "a.b.c") None) nestedBag
  = resolveValueInPlace (textRun (Some "default") (Some "a.b.c") None)
      nestedBag.
Proof.
  apply resolveValue_copy_is_neutral; [|reflexivity]. simpl.
  repeat (split; try exact I);
    repeat (constructor; [simpl; tauto|]); constructor.
Defined.

Lemma paragraphChildren_passes_images_witness :
  imageRunsOf (textToRuns newBuilder fieldOnlyRun "Ada" ++ [ImageRun picture])
  = imagesOf [TextType fieldOnlyRun; ImageType picture].
Proof.
  apply (paragraphChildren_passes_images newBuilder
           (JObj [("name", JStr "Ada")])
           [TextType fieldOnlyRun; ImageType picture]).
  reflexivity.
Defined.

Lemma parseLine_recognises_a_tag_witness :
  parseLine "H<sub>2</sub>O"
  = [ {| type := "text"; value := "H" |};
      {| type := "sub"; value := "2" |};
      {| type := "text"; value := "O" |} ].
Proof.
  apply (parseLine_recognises_a_tag "sub" "H" "2" "O");
    try reflexivity.
  simpl. tauto.
Defined.

Lemma parseLine_plain_text_witness :
  parseLine "2 > 1" = [ {| type := "text"; value := "2 > 1" |} ].
Proof. apply (parseLine_plain_text "2 > 1"). reflexivity. Defined.

Lemma textRunOptions_styles_witness :
  styleCount (textRunOptions newBuilder (textRun None None None)
                {| type := "u"; value := "x" |} 0 0 1) = 1
  /\ bold (textRunOptions newBuilder
             (setField {| text := None; field := None; htmlConfig := None;
                          font := None; size := None; color := None;
                          bold := Some false; italics := None;
                          underline := None; strike := None;
                          subScript := None; superScript := None;
                          break := None |} None)
             {| type := "strong"; value := "x" |} 0 0 1) = Some false.
Proof.
  split.
  - apply (proj1 (proj2 (proj2 (textRunOptions_styles newBuilder
                                  (textRun None None None) "x" 0 0 1)
                           eq_refl))).
    simpl. tauto.
  - apply (proj1 (textRunOptions_styles newBuilder _ "x" 0 0 1)).
    reflexivity.
Defined.

Lemma negative_break_raises_in_html_witness :
  renderTextHtml (fun _ => "0") newBuilder JUndefined
    (runWithBreak "x" (-1))
  = Throw RangeError.
Proof.
  apply (negative_break_raises_in_html (fun _ => "0") newBuilder
           JUndefined (runWithBreak "x" (-1)) (-1)%Z);
    [reflexivity|discriminate].
Defined.

Lemma html_keeps_empty_paragraphs_witness :
  renderChildren newBuilder
    [ParagraphType {| alignment := None; spacing := None |} []] JUndefined
  = Ok [].
Proof.
  apply (proj2 (html_keeps_empty_paragraphs (fun _ => "0") newBuilder
                  JUndefined {| alignment := None; spacing := None |} []
                  _ eq_refl)).
  reflexivity.
Defined.

Lemma html_without_htmlConfig_ignores_data_witness :
  renderChildrenHtml (fun _ => "20") newBuilder
    [ParagraphType {| alignment := None; spacing := None |}
       [TextType fieldOnlyRun]]
    (JObj [("name", JStr "Ada")])
  = renderChildrenHtml (fun _ => "20") newBuilder
      [ParagraphType {| alignment := None; spacing := None |}
         [TextType fieldOnlyRun]]
      JUndefined.
Proof.
  apply html_without_htmlConfig_ignores_data.
  repeat constructor.
Defined.

Lemma isChinese_all_units_witness :
  isChinese [0x4E2D; 0x61]%N = false.
Proof.
  apply (proj1 (proj2 (proj2 isChinese_all_units)) _ 0x61%N).
  - simpl. tauto.
  - reflexivity.
Defined.

Lemma textToRuns_plain_line_witness :
  map textOf (textToRuns newBuilder (plainRun "") "2 > 1") = [Some "2 > 1"].
Proof.
  rewrite (textToRuns_plain_line newBuilder (plainRun "") "2 > 1");
    [reflexivity|discriminate|reflexivity|reflexivity].
Defined.

Lemma lineToRuns_break_on_last_item_witness :
  map breakOf
    (lineToRuns newBuilder (plainRun "")
       [ {| type := "text"; value := "a" |};
         {| type := "b"; value := "x" |} ] 1)
  = [Some 0%Z; Some 1%Z].
Proof.
  apply (lineToRuns_break_on_last_item newBuilder (plainRun "")
           [ {| type := "text"; value := "a" |} ]
           {| type := "b"; value := "x" |} 1).
  - reflexivity.
  - discriminate.
Defined.
